(** * plot_precision_recall: a model of the notebook and its properties

    The repository is one Jupyter notebook,
    [plot_precision_recall-checkpoint.ipynb].  Its code cells call numpy,
    scikit-learn and matplotlib; the only numerical code written in the
    notebook itself is the iso-F1 curve of cell 17.

    The notebook is embedded as a program in a state-and-exception monad over
    an abstract [Library]: one field per third-party function the cells call.
    Floating-point numbers are modelled by exact rationals ([Q]); the
    arithmetic of cell 17, the one place where the notebook computes with
    them itself, is given in binary64 as well (module [B64]).  Python operators and subscripts written in the cells
    ([*], [/], [-], [>=], [a[mask]], [a[i]], [M[:, i]], [d[k]]) are the
    notebook's own code and are defined here; named functions are fields of
    the library, except [np.linspace] and [np.c_], whose documented results
    are written out.  Library functions are total; the exceptions modelled
    are those the notebook's own subscripts and names can raise.
*)

From Stdlib Require Import String QArith ZArith List Bool Lia Permutation.
From Stdlib Require Import Qround Qfield DecimalString Arith Lqa.
From Stdlib Require Import PrimFloat.
Import ListNotations.

(** ** Arrays *)

Definition vec := list Q.              (* 1-D float array *)
Definition matrix := list (list Q).    (* 2-D float array, by rows *)
Definition labels := list Z.           (* 1-D integer array *)
Definition indicator := list (list Z). (* 2-D label indicator matrix, by rows *)

(** [iris = datasets.load_iris()]: what the notebook reads of it. *)
Record dataset := { data : matrix; target : labels }.

(** Exceptions the notebook's own subscripts and names can raise. *)
Inductive exn := KeyError | IndexError | NameError | ValueError.

Inductive result (A : Type) :=
| Ok (a : A)
| Raise (e : exn).
Arguments Ok {A} a.
Arguments Raise {A} e.

(** [M.shape[1]] of a matrix kept by rows. *)
Definition shape1 {A} (m : list (list A)) : nat :=
  match m with
  | [] => 0
  | r :: _ => length r
  end.

(** [a[mask]] with a boolean mask: IndexError when the lengths differ. *)
Fixpoint mask_select {A} (a : list A) (mask : list bool) : result (list A) :=
  match a, mask with
  | [], [] => Ok []
  | x :: a', b :: mask' =>
      match mask_select a' mask' with
      | Ok r => Ok (if b then x :: r else r)
      | Raise e => Raise e
      end
  | _, _ => Raise IndexError
  end.

(** [M[:, i]]: IndexError when column [i] does not exist. *)
Fixpoint column {A} (i : nat) (m : list (list A)) : result (list A) :=
  match m with
  | [] => Ok []
  | r :: m' =>
      match nth_error r i, column i m' with
      | Some v, Ok c => Ok (v :: c)
      | _, _ => Raise IndexError
      end
  end.

(** [M.ravel()]: row-major flattening. *)
Definition ravel {A} (m : list (list A)) : list A := concat m.

(** [np.c_[A, B]]: column-wise concatenation; ValueError when the numbers of
    rows differ. *)
Fixpoint c_ (a b : matrix) : result matrix :=
  match a, b with
  | [], [] => Ok []
  | r :: a', s :: b' =>
      match c_ a' b' with
      | Ok m => Ok ((r ++ s) :: m)
      | Raise e => Raise e
      end
  | _, _ => Raise ValueError
  end.

(** [np.linspace(start, stop, num)]: [num] evenly spaced points from [start]
    to [stop], both included. *)
Definition linspace (start stop : Q) (num : nat) : vec :=
  map (fun k => start + inject_Z (Z.of_nat k) * ((stop - start) / inject_Z (Z.of_nat (num - 1))))
      (seq 0 num).

(** ** Python dictionaries keyed by an int or a string *)

Inductive key :=
| KInt (i : nat)
| KStr (s : string).

Definition key_eqb (a b : key) : bool :=
  match a, b with
  | KInt i, KInt j => Nat.eqb i j
  | KStr s, KStr t => String.eqb s t
  | _, _ => false
  end.

Definition dict (A : Type) := list (key * A).

Fixpoint dict_get {A} (d : dict A) (k : key) : result A :=
  match d with
  | [] => Raise KeyError
  | (k', v) :: d' => if key_eqb k k' then Ok v else dict_get d' k
  end.

Fixpoint dict_set {A} (d : dict A) (k : key) (v : A) : dict A :=
  match d with
  | [] => [(k, v)]
  | (k', v') :: d' => if key_eqb k k' then (k, v) :: d' else (k', v') :: dict_set d' k v
  end.

(** ** The iso-F1 formula of cell 17 *)

(** [y = f_score * x / (2 * x - f_score)], pointwise. *)
Definition iso_f1 (f_score x : Q) : Q := f_score * x / (2 * x - f_score).

(** The F1 score of the notebook's introduction: [2 * P * R / (P + R)]. *)
Definition F1 (p r : Q) : Q := 2 * (p * r) / (p + r).

(** [y >= 0], pointwise. *)
Definition ge0 (y : vec) : list bool := map (fun v => Qle_bool 0 v) y.

(** [f_scores = np.linspace(0.2, 0.8, num=4)] and [x = np.linspace(0.01, 1)]
    (numpy's default is 50 points). *)
Definition f_scores : vec := linspace (2 # 10) (8 # 10) 4.
Definition x_grid : vec := linspace (1 # 100) 1 50.

(** Neither [x] nor the denominator [2 * x - f] vanishes on a grid, as a
    boolean. *)
Definition grid_ok (fs xs : vec) : bool :=
  forallb (fun f => forallb (fun x => negb (Qeq_bool x 0) && negb (Qeq_bool (2 * x - f) 0)) xs) fs.

(** ** What the notebook shows *)

(** A line object as [plt.plot] returns it. *)
Record line := { xdata : vec; ydata : vec; color : string }.

(** A floating-point or integer value a library call returned. *)
Inductive value :=
| Scalar (q : Q)
| Array (v : vec)
| Matrix (m : matrix)
| Ints (l : labels)
| IntMatrix (m : indicator).

Inductive event :=
| Print (s : string)
| Display (v : value)
| Figure
| Step (x y : vec) (c : string)
| FillBetween (x y : vec) (c : string)
| Plot (l : line)
| Annotate (text : string) (xy : Q * Q)
| XLabel (s : string)
| YLabel (s : string)
| XLim (lo hi : Q)
| YLim (lo hi : Q)
| Title (s : string)
| SubplotsAdjust (bottom : Q)
| Legend (lines : list line) (labels : list string)
| Show.

(** ** The third-party functions the cells call *)

Record Library := {
  rng : Type;   (* internal state of a numpy RandomState *)
  svc : Type;   (* a fitted svm.LinearSVC *)
  ovr : Type;   (* a fitted OneVsRestClassifier *)
  RandomState : Z -> rng;
  randn : nat -> nat -> rng -> matrix * rng;
  train_test_split :
    forall L : Type, matrix -> list L -> Q -> rng -> (matrix * matrix * list L * list L) * rng;
  LinearSVC_fit : matrix -> labels -> rng -> svc * rng;
  decision_function : svc -> matrix -> vec;
  OneVsRestClassifier_fit : matrix -> indicator -> rng -> ovr * rng;
  ovr_decision_function : ovr -> matrix -> matrix;
  label_binarize : labels -> list Z -> indicator;
  average_precision_score : labels -> vec -> Q;
  average_precision_score_micro : indicator -> matrix -> Q;
  precision_recall_curve : labels -> vec -> vec * vec * vec;
  format_2f : Q -> string;   (* '{0:0.2f}'.format *)
  format_1f : Q -> string    (* '{0:0.1f}'.format *)
}.
Arguments train_test_split _ {L} _ _ _ _.

(** What the library's documentation promises and the notebook relies on. *)
Record Contract (lib : Library) : Prop := {
  randn_rows : forall n m r, length (fst (randn lib n m r)) = n;
  split_partition : forall (L : Type) (X : matrix) (y : list L) ts r,
    length X = length y ->
    let '(X_train, X_test, y_train, y_test) := fst (train_test_split lib X y ts r) in
    length X_train = length y_train /\ length X_test = length y_test /\
    Permutation (combine X_train y_train ++ combine X_test y_test) (combine X y);
  split_test_size : forall (L : Type) (X : matrix) (y : list L) ts r,
    0 <= ts -> ts <= 1 ->
    let '(_, X_test, _, _) := fst (train_test_split lib X y ts r) in
    Z.of_nat (length X_test) = Qceiling (ts * inject_Z (Z.of_nat (length X)));
  binarize_rows : forall y classes,
    length (label_binarize lib y classes) = length y;
  binarize_columns : forall y classes, (2 < length classes)%nat ->
    Forall (fun row => length row = length classes) (label_binarize lib y classes);
  ovr_scores_columns : forall X Y r X',
    Forall (fun row => length row = shape1 Y)
           (ovr_decision_function lib (fst (OneVsRestClassifier_fit lib X Y r)) X')
}.
Arguments randn_rows {lib} c.
Arguments split_partition {lib} c {L}.
Arguments split_test_size {lib} c {L}.
Arguments binarize_rows {lib} c.
Arguments binarize_columns {lib} c.
Arguments ovr_scores_columns {lib} c.

(** ** The notebook *)

(** The [random_state=] keyword of a library call: [None] draws from numpy's
    global generator, which starts from the operating system's entropy; the
    notebook always passes its own [random_state] object. *)
Inductive random_state_arg := RsNone | RsNotebook.

(** ['{0}'.format(i)] for an int. *)
Definition format_int (i : nat) : string := NilZero.string_of_uint (Nat.to_uint i).

(** [zip(range(n), cycle(cs))]: [cycle] of an empty list yields nothing. *)
Definition zip_range_cycle {A} (n : nat) (cs : list A) : list (nat * A) :=
  match cs with
  | [] => []
  | c :: _ => map (fun i => (i, nth (i mod length cs) cs c)) (seq 0 n)
  end.

(** The list under [colors = cycle([...])] in cell 17. *)
Definition colors : list string :=
  ["navy"; "turquoise"; "darkorange"; "cornflowerblue"; "teal"]%string.

Section Notebook.

Variable lib : Library.

(** The interpreter's state: numpy's global generator, the notebook's
    [random_state] object (unbound before cell 4), what has been shown so
    far, and the values library calls have returned so far (oldest first). *)
Record world := {
  np_global : rng lib;
  random_state : option (rng lib);
  trace : list event;
  returned : list value
}.

Definition M (A : Type) : Type := world -> result (A * world).

Definition ret {A} (a : A) : M A := fun w => Ok (a, w).

Definition bind {A B} (c : M A) (k : A -> M B) : M B :=
  fun w =>
    match c w with
    | Ok (a, w') => k a w'
    | Raise e => Raise e
    end.

Notation "x <- c ;; k" := (bind c (fun x => k))
  (at level 61, c at next level, right associativity).
Notation "' p <- c ;; k" := (bind c (fun x => match x with p => k end))
  (at level 61, p pattern, c at next level, right associativity).
Notation "c ;; k" := (bind c (fun _ => k))
  (at level 61, right associativity).

(** A subscript or lookup of the notebook's own, which may raise. *)
Definition lift {A} (r : result A) : M A :=
  fun w =>
    match r with
    | Ok a => Ok (a, w)
    | Raise e => Raise e
    end.

(** A matplotlib call or a [print]. *)
Definition emit (e : event) : M unit :=
  fun w => Ok (tt, {| np_global := np_global w; random_state := random_state w;
                      trace := trace w ++ [e]; returned := returned w |}).

(** [random_state = np.random.RandomState(seed)]. *)
Definition assign_random_state (seed : Z) : M unit :=
  fun w => Ok (tt, {| np_global := np_global w; random_state := Some (RandomState lib seed);
                      trace := trace w; returned := returned w |}).

(** A randomised library call [f(..., random_state=arg)]. *)
Definition draw {A} (arg : random_state_arg) (f : rng lib -> A * rng lib) : M A :=
  fun w =>
    match arg with
    | RsNone =>
        let '(a, g) := f (np_global w) in
        Ok (a, {| np_global := g; random_state := random_state w;
                  trace := trace w; returned := returned w |})
    | RsNotebook =>
        match random_state w with
        | Some r =>
            let '(a, r') := f r in
            Ok (a, {| np_global := np_global w; random_state := Some r';
                      trace := trace w; returned := returned w |})
        | None => Raise NameError
        end
    end.

(** Records what a library call returned. *)
Definition returns {A} (c : M A) (vals : A -> list value) : M A :=
  fun w =>
    match c w with
    | Ok (a, w') =>
        Ok (a, {| np_global := np_global w'; random_state := random_state w';
                  trace := trace w'; returned := returned w' ++ vals a |})
    | Raise e => Raise e
    end.

(** [for v in l: s = body(v, s)]. *)
Fixpoint for_in {A S} (l : list A) (body : A -> S -> M S) (s : S) : M S :=
  match l with
  | [] => ret s
  | v :: l' => s' <- body v s ;; for_in l' body s'
  end.

Definition curve_values (c : vec * vec * vec) : list value :=
  let '(p, r, t) := c in [Array p; Array r; Array t].

(** Cell 4: noisy features, the two first classes, split, fit, score.
    Leaves [X] (with the noisy features), [y], [y_train], [y_test] and
    [y_score] in the namespace. *)
Definition cell_4 (load_iris : dataset) : M (matrix * labels * labels * labels * vec) :=
  iris <- returns (ret load_iris) (fun d => [Matrix (data d); Ints (target d)]) ;;
  let X := data iris in
  let y := target iris in
  assign_random_state 0 ;;
  let n_samples := length X in
  let n_features := shape1 X in
  noise <- returns (draw RsNotebook (randn lib n_samples (200 * n_features)))
                   (fun m => [Matrix m]) ;;
  X <- returns (lift (c_ X noise)) (fun m => [Matrix m]) ;;
  X2 <- lift (mask_select X (map (fun v => v <? 2)%Z y)) ;;
  y2 <- lift (mask_select y (map (fun v => v <? 2)%Z y)) ;;
  ' (X_train, X_test, y_train, y_test) <-
    returns (draw RsNotebook (train_test_split lib X2 y2 (1 # 2)))
            (fun '(a, b, c, d) => [Matrix a; Matrix b; Ints c; Ints d]) ;;
  classifier <- draw RsNotebook (LinearSVC_fit lib X_train y_train) ;;
  y_score <- returns (ret (decision_function lib classifier X_test))
                     (fun v => [Array v]) ;;
  ret (X, y, y_train, y_test, y_score).

(** Cell 7: the average precision score, printed. *)
Definition cell_7 (y_test : labels) (y_score : vec) : M Q :=
  average_precision <- returns (ret (average_precision_score lib y_test y_score))
                               (fun v => [Scalar v]) ;;
  emit (Print ("Average precision-recall score: " ++ format_2f lib average_precision)%string) ;;
  ret average_precision.

(** Cell 9: the 2-class precision-recall curve. *)
Definition cell_9 (y_test : labels) (y_score : vec) (average_precision : Q) : M unit :=
  ' (precision, recall, _) <- returns (ret (precision_recall_curve lib y_test y_score))
                                      curve_values ;;
  emit (Step recall precision "b") ;;
  emit (FillBetween recall precision "b") ;;
  emit (XLabel "Recall") ;;
  emit (YLabel "Precision") ;;
  emit (YLim 0 (105 # 100)) ;;
  emit (XLim 0 1) ;;
  emit (Title ("2-class Precision-Recall curve: AP=" ++ format_2f lib average_precision)%string).

(** Cell 11: binarized labels, split, one-vs-rest fit, scores. *)
Definition cell_11 (X : matrix) (y : labels) : M (nat * indicator * matrix) :=
  Y <- returns (ret (label_binarize lib y [0; 1; 2]%Z)) (fun m => [IntMatrix m]) ;;
  let n_classes := shape1 Y in
  ' (X_train, X_test, Y_train, Y_test) <-
    returns (draw RsNotebook (train_test_split lib X Y (1 # 2)))
            (fun '(a, b, c, d) => [Matrix a; Matrix b; IntMatrix c; IntMatrix d]) ;;
  classifier <- draw RsNotebook (OneVsRestClassifier_fit lib X_train Y_train) ;;
  y_score <- returns (ret (ovr_decision_function lib classifier X_test))
                     (fun m => [Matrix m]) ;;
  ret (n_classes, Y_test, y_score).

(** The three dictionaries of cell 13. *)
Record curves := {
  precision : dict vec;
  recall : dict vec;
  average_precision : dict Q
}.

(** Body of [for i in range(n_classes)] in cell 13. *)
Definition class_curve (Y_test : indicator) (y_score : matrix) (i : nat) (d : curves)
  : M curves :=
  yt <- lift (column i Y_test) ;;
  ys <- lift (column i y_score) ;;
  ' (p, r, _) <- returns (ret (precision_recall_curve lib yt ys)) curve_values ;;
  yt' <- lift (column i Y_test) ;;
  ys' <- lift (column i y_score) ;;
  ap <- returns (ret (average_precision_score lib yt' ys')) (fun v => [Scalar v]) ;;
  ret {| precision := dict_set (precision d) (KInt i) p;
         recall := dict_set (recall d) (KInt i) r;
         average_precision := dict_set (average_precision d) (KInt i) ap |}.

(** Cell 13: per-class curves and scores, then the micro-average. *)
Definition cell_13 (n_classes : nat) (Y_test : indicator) (y_score : matrix) : M curves :=
  d <- for_in (seq 0 n_classes) (class_curve Y_test y_score)
              {| precision := []; recall := []; average_precision := [] |} ;;
  ' (p, r, _) <- returns (ret (precision_recall_curve lib (ravel Y_test) (ravel y_score)))
                         curve_values ;;
  ap <- returns (ret (average_precision_score_micro lib Y_test y_score))
                (fun v => [Scalar v]) ;;
  let d := {| precision := dict_set (precision d) (KStr "micro") p;
              recall := dict_set (recall d) (KStr "micro") r;
              average_precision := dict_set (average_precision d) (KStr "micro") ap |} in
  ap_micro <- lift (dict_get (average_precision d) (KStr "micro")) ;;
  emit (Print ("Average precision score, micro-averaged over all classes: "
               ++ format_2f lib ap_micro)%string) ;;
  ret d.

(** Cell 5: a cell shows the value of its last expression, [y_train]. *)
Definition cell_5 (y_train : labels) : M unit :=
  emit (Display (Ints y_train)).

(** Cell 15: the micro-averaged curve. *)
Definition cell_15 (d : curves) : M unit :=
  emit Figure ;;
  r <- lift (dict_get (recall d) (KStr "micro")) ;;
  p <- lift (dict_get (precision d) (KStr "micro")) ;;
  emit (Step r p "b") ;;
  r <- lift (dict_get (recall d) (KStr "micro")) ;;
  p <- lift (dict_get (precision d) (KStr "micro")) ;;
  emit (FillBetween r p "b") ;;
  emit (XLabel "Recall") ;;
  emit (YLabel "Precision") ;;
  emit (YLim 0 (105 # 100)) ;;
  emit (XLim 0 1) ;;
  ap <- lift (dict_get (average_precision d) (KStr "micro")) ;;
  emit (Title ("Average precision score, micro-averaged over all classes: AP="
               ++ format_2f lib ap)%string).

(** [l, = plt.plot(x, y, color=c)]. *)
Definition plot (x y : vec) (c : string) : M line :=
  let l := {| xdata := x; ydata := y; color := c |} in
  emit (Plot l) ;; ret l.

(** Body of [for f_score in f_scores] in cell 17; the state is the variable
    [l], unbound before the first pass. *)
Definition iso_f1_curve (f_score : Q) (l : option line) : M (option line) :=
  x <- returns (ret x_grid) (fun v => [Array v]) ;;
  let y := map (iso_f1 f_score) x in
  xs <- lift (mask_select x (ge0 y)) ;;
  ys <- lift (mask_select y (ge0 y)) ;;
  l <- plot xs ys "gray" ;;
  y45 <- lift (match nth_error y 45 with Some v => Ok v | None => Raise IndexError end) ;;
  emit (Annotate ("f1=" ++ format_1f lib f_score)%string (9 # 10, y45 + (2 # 100))) ;;
  ret (Some l).

(** Body of [for i, color in zip(range(n_classes), colors)] in cell 17; the
    state is the pair of lists [lines] and [labels]. *)
Definition class_line (d : curves) (ic : nat * string) (s : list line * list string)
  : M (list line * list string) :=
  let '(i, color) := ic in
  let '(lines, labels) := s in
  r <- lift (dict_get (recall d) (KInt i)) ;;
  p <- lift (dict_get (precision d) (KInt i)) ;;
  l <- plot r p color ;;
  ap <- lift (dict_get (average_precision d) (KInt i)) ;;
  ret (lines ++ [l],
       labels ++ [("Precision-recall for class " ++ format_int i ++ " (area = "
                   ++ format_2f lib ap ++ ")")%string]).

(** Cell 17: iso-F1 curves, the micro-averaged curve, one curve per class. *)
Definition cell_17 (n_classes : nat) (d : curves) : M unit :=
  emit Figure ;;
  f_scores <- returns (ret f_scores) (fun v => [Array v]) ;;
  l <- for_in f_scores iso_f1_curve None ;;
  l <- lift (match l with Some l => Ok l | None => Raise NameError end) ;;
  let lines := [l] in
  let labels := ["iso-f1 curves"%string] in
  r <- lift (dict_get (recall d) (KStr "micro")) ;;
  p <- lift (dict_get (precision d) (KStr "micro")) ;;
  l <- plot r p "gold" ;;
  let lines := lines ++ [l] in
  ap <- lift (dict_get (average_precision d) (KStr "micro")) ;;
  let labels := labels ++ [("micro-average Precision-recall (area = "
                            ++ format_2f lib ap ++ ")")%string] in
  ' (lines, labels) <- for_in (zip_range_cycle n_classes colors) (class_line d)
                              (lines, labels) ;;
  emit (SubplotsAdjust (25 # 100)) ;;
  emit (XLim 0 1) ;;
  emit (YLim 0 (105 # 100)) ;;
  emit (XLabel "Recall") ;;
  emit (YLabel "Precision") ;;
  emit (Title "Extension of Precision-Recall curve to multi-class") ;;
  emit (Legend lines labels) ;;
  emit Show.

(** The binary classification part: cells 4 to 9. *)
Definition binary_case (iris : dataset) : M (matrix * labels) :=
  ' (X, y, y_train, y_test, y_score) <- cell_4 iris ;;
  cell_5 y_train ;;
  average_precision <- cell_7 y_test y_score ;;
  cell_9 y_test y_score average_precision ;;
  ret (X, y).

(** The multi-label part: cells 11 to 17. *)
Definition multilabel_case (X : matrix) (y : labels) : M curves :=
  ' (n_classes, Y_test, y_score) <- cell_11 X y ;;
  d <- cell_13 n_classes Y_test y_score ;;
  cell_15 d ;;
  cell_17 n_classes d ;;
  ret d.

(** The whole notebook, top to bottom. *)
Definition notebook (iris : dataset) : M curves :=
  ' (X, y) <- binary_case iris ;;
  multilabel_case X y.

(** A run: [g] is the state of numpy's global generator when the kernel
    starts. *)
Definition run (iris : dataset) (g : rng lib) : result (curves * world) :=
  notebook iris {| np_global := g; random_state := None; trace := []; returned := [] |}.

End Notebook.

Arguments np_global {lib} w.
Arguments random_state {lib} w.
Arguments trace {lib} w.
Arguments returned {lib} w.
Arguments ret {lib A} a w.
Arguments bind {lib A B} c k w.
Arguments lift {lib A} r w.
Arguments emit {lib} e w.
Arguments assign_random_state {lib} seed w.
Arguments draw {lib A} arg f w.
Arguments returns {lib A} c vals w.
Arguments for_in {lib A S} l body s.
Arguments plot {lib} x y c.

(** ** A small library instance

    Deterministic stand-ins for the library functions, used to run the
    notebook on concrete data.  The generator state is a counter; [randn]
    returns the counter's value in every entry; the split keeps the order of
    the samples and puts the first [ceil(test_size * n)] in the test set. *)
Module Toy.

Definition split {L : Type} (X : matrix) (y : list L) (ts : Q) (r : nat)
  : (matrix * matrix * list L * list L) * nat :=
  let n_test := Nat.min (length X) (Z.to_nat (Qceiling (ts * inject_Z (Z.of_nat (length X))))) in
  ((skipn n_test X, firstn n_test X, skipn n_test y, firstn n_test y), S r).

Definition score (row : list Q) : Q := hd 0 row.

Definition sumZ (l : list Z) : Z := fold_right Z.add 0%Z l.

Definition show (q : Q) : string :=
  (NilZero.string_of_int (Z.to_int (Qnum q)) ++ "/"
   ++ NilZero.string_of_uint (Pos.to_uint (Qden q)))%string.

Definition lib : Library := {|
  rng := nat;
  svc := unit;
  ovr := nat;
  RandomState := Z.to_nat;
  randn := fun n m r => (repeat (repeat (inject_Z (Z.of_nat r)) m) n, S r);
  train_test_split := @split;
  LinearSVC_fit := fun _ _ r => (tt, S r);
  decision_function := fun _ X => map score X;
  OneVsRestClassifier_fit := fun _ Y r => (shape1 Y, S r);
  ovr_decision_function := fun k X =>
    map (fun row => map (fun c => score row + inject_Z (Z.of_nat c)) (seq 0 k)) X;
  label_binarize := fun y classes =>
    map (fun v => map (fun c => if (v =? c)%Z then 1%Z else 0%Z) classes) y;
  average_precision_score := fun y s => inject_Z (sumZ y) / inject_Z (Z.of_nat (length y));
  average_precision_score_micro := fun Y S =>
    inject_Z (sumZ (ravel Y)) / inject_Z (Z.of_nat (length (ravel Y)));
  precision_recall_curve := fun y s => (map inject_Z y ++ [1], s ++ [0], s);
  format_2f := show;
  format_1f := show
|}.

(** Four samples with one feature each, labelled 0, 1, 2, 0. *)
Definition iris : dataset :=
  {| data := [[5 # 1]; [6 # 1]; [7 # 1]; [4 # 1]]; target := [0; 1; 2; 0]%Z |}.

(** The state a kernel starts in, with the global generator at 0. *)
Definition world0 : world lib :=
  {| np_global := (0%nat : rng lib); random_state := None; trace := []; returned := [] |}.

End Toy.

(** ** Specifications of runs *)

(** Total correctness: [c] returns from [w], and [Q] holds of its result and
    final state. *)
Definition wp {lib : Library} {A} (c : M lib A) (Q : A -> world lib -> Prop)
  (w : world lib) : Prop :=
  match c w with
  | Ok (a, w') => Q a w'
  | Raise _ => False
  end.

(** What [a[mask]] selects when the lengths agree. *)
Definition mask {A} (a : list A) (m : list bool) : list A :=
  map fst (filter snd (combine a m)).

(** The steps of cell 4, in order: noise, concatenation, restriction to the
    labels below 2, split, fit.  [r3] is the generator's state afterwards. *)
Definition cell_4_steps (lib : Library) (iris : dataset)
  (X X2 : matrix) (y2 : labels) (X_train X_test : matrix) (y_train y_test : labels)
  (classifier : svc lib) (r3 : rng lib) : Prop :=
  exists noise r1 r2,
    randn lib (length (data iris)) (200 * shape1 (data iris)) (RandomState lib 0) = (noise, r1) /\
    c_ (data iris) noise = Ok X /\
    mask_select X (map (fun v => v <? 2)%Z (target iris)) = Ok X2 /\
    mask_select (target iris) (map (fun v => v <? 2)%Z (target iris)) = Ok y2 /\
    train_test_split lib X2 y2 (1 # 2) r1 = ((X_train, X_test, y_train, y_test), r2) /\
    LinearSVC_fit lib X_train y_train r2 = (classifier, r3).

(** What cells 9 and 15 draw for a curve: the stepped line, the filled area,
    the axes and the title. *)
Definition curve_events (recall precision : vec) (title : string) : list event :=
  [Step recall precision "b"; FillBetween recall precision "b";
   XLabel "Recall"; YLabel "Precision"; YLim 0 (105 # 100); XLim 0 1; Title title].

(** [M[:, i]] and [d[k]] where they are known not to raise. *)
Definition col {A} (i : nat) (m : list (list A)) : list A :=
  match column i m with
  | Ok c => c
  | Raise _ => []
  end.

Definition lookup {A} (d : dict A) (k : key) (default : A) : A :=
  match dict_get d k with
  | Ok v => v
  | Raise _ => default
  end.

(** One pass of the loop of cell 13: the entries of class [i] and the values
    the two library calls return. *)
Definition add_class (lib : Library) (Y_test : indicator) (y_score : matrix)
  (d : curves) (i : nat) : curves :=
  let '(p, r, _) := precision_recall_curve lib (col i Y_test) (col i y_score) in
  {| precision := dict_set (precision d) (KInt i) p;
     recall := dict_set (recall d) (KInt i) r;
     average_precision :=
       dict_set (average_precision d) (KInt i)
                (average_precision_score lib (col i Y_test) (col i y_score)) |}.

Definition class_values (lib : Library) (Y_test : indicator) (y_score : matrix)
  (i : nat) : list value :=
  curve_values (precision_recall_curve lib (col i Y_test) (col i y_score))
  ++ [Scalar (average_precision_score lib (col i Y_test) (col i y_score))].

(** The micro-averaged entries of cell 13. *)
Definition add_micro (lib : Library) (Y_test : indicator) (y_score : matrix)
  (d : curves) : curves :=
  let '(p, r, _) := precision_recall_curve lib (ravel Y_test) (ravel y_score) in
  {| precision := dict_set (precision d) (KStr "micro") p;
     recall := dict_set (recall d) (KStr "micro") r;
     average_precision :=
       dict_set (average_precision d) (KStr "micro")
                (average_precision_score_micro lib Y_test y_score) |}.

Definition micro_values (lib : Library) (Y_test : indicator) (y_score : matrix)
  : list value :=
  curve_values (precision_recall_curve lib (ravel Y_test) (ravel y_score))
  ++ [Scalar (average_precision_score_micro lib Y_test y_score)].

(** The dictionaries cell 13 leaves behind. *)
Definition cell_13_curves (lib : Library) (n_classes : nat) (Y_test : indicator)
  (y_score : matrix) : curves :=
  add_micro lib Y_test y_score
    (fold_left (add_class lib Y_test y_score) (seq 0 n_classes)
               {| precision := []; recall := []; average_precision := [] |}).

(** The three entries of a key. *)
Definition entries (d : curves) (k : key) : result vec * result vec * result Q :=
  (dict_get (precision d) k, dict_get (recall d) k, dict_get (average_precision d) k).

(** What one pass of the first loop of cell 17 draws for the level [f]. *)
Definition iso_line (f : Q) : line :=
  let y := map (iso_f1 f) x_grid in
  {| xdata := mask x_grid (ge0 y); ydata := mask y (ge0 y); color := "gray" |}.

Definition iso_events (lib : Library) (f : Q) : list event :=
  [Plot (iso_line f);
   Annotate ("f1=" ++ format_1f lib f)%string
            (9 # 10, nth 45 (map (iso_f1 f) x_grid) 0 + (2 # 100))].

(** The line and the legend entry of the micro-average and of a class. *)
Definition micro_line (d : curves) : line :=
  {| xdata := lookup (recall d) (KStr "micro") [];
     ydata := lookup (precision d) (KStr "micro") [];
     color := "gold" |}.

Definition micro_label (lib : Library) (d : curves) : string :=
  ("micro-average Precision-recall (area = "
   ++ format_2f lib (lookup (average_precision d) (KStr "micro") 0) ++ ")")%string.

Definition class_line_of (d : curves) (ic : nat * string) : line :=
  {| xdata := lookup (recall d) (KInt (fst ic)) [];
     ydata := lookup (precision d) (KInt (fst ic)) [];
     color := snd ic |}.

Definition class_label_of (lib : Library) (d : curves) (ic : nat * string) : string :=
  ("Precision-recall for class " ++ format_int (fst ic) ++ " (area = "
   ++ format_2f lib (lookup (average_precision d) (KInt (fst ic)) 0) ++ ")")%string.

(** Everything cell 17 shows, in order. *)
Definition cell_17_events (lib : Library) (n_classes : nat) (d : curves) : list event :=
  let zs := zip_range_cycle n_classes colors in
  Figure
  :: flat_map (iso_events lib) f_scores
  ++ Plot (micro_line d)
  :: map (fun ic => Plot (class_line_of d ic)) zs
  ++ [SubplotsAdjust (25 # 100); XLim 0 1; YLim 0 (105 # 100);
      XLabel "Recall"; YLabel "Precision";
      Title "Extension of Precision-Recall curve to multi-class";
      Legend (iso_line (last f_scores 0) :: micro_line d :: map (class_line_of d) zs)
             ("iso-f1 curves"%string :: micro_label lib d :: map (class_label_of lib d) zs);
      Show].

(** The steps of cell 11 from the generator state [r0]: split of the
    binarized labels, one-vs-rest fit.  [r2] is the state afterwards. *)
Definition cell_11_steps (lib : Library) (X : matrix) (y : labels) (r0 : rng lib)
  (X_train X_test : matrix) (Y_train Y_test : indicator)
  (classifier : ovr lib) (r2 : rng lib) : Prop :=
  exists r1,
    train_test_split lib X (label_binarize lib y [0; 1; 2]%Z) (1 # 2) r0
      = ((X_train, X_test, Y_train, Y_test), r1) /\
    OneVsRestClassifier_fit lib X_train Y_train r1 = (classifier, r2).

(** What the binary case shows and what its library calls return. *)
Definition binary_events (lib : Library) (y_train y_test : labels) (y_score : vec)
  : list event :=
  let ap := average_precision_score lib y_test y_score in
  let '(p, r, _) := precision_recall_curve lib y_test y_score in
  Display (Ints y_train)
  :: Print ("Average precision-recall score: " ++ format_2f lib ap)%string
  :: curve_events r p ("2-class Precision-Recall curve: AP=" ++ format_2f lib ap)%string.

Definition binary_returned (lib : Library) (iris : dataset) (X X_train X_test : matrix)
  (y_train y_test : labels) (y_score : vec) : list value :=
  [Matrix (data iris); Ints (target iris);
   Matrix (fst (randn lib (length (data iris)) (200 * shape1 (data iris))
                      (RandomState lib 0)));
   Matrix X; Matrix X_train; Matrix X_test; Ints y_train; Ints y_test; Array y_score;
   Scalar (average_precision_score lib y_test y_score)]
  ++ curve_values (precision_recall_curve lib y_test y_score).

(** What the multi-label case shows and what its library calls return. *)
Definition multilabel_events (lib : Library) (n_classes : nat) (Y_test : indicator)
  (y_score : matrix) : list event :=
  let d := cell_13_curves lib n_classes Y_test y_score in
  Print ("Average precision score, micro-averaged over all classes: "
         ++ format_2f lib (average_precision_score_micro lib Y_test y_score))%string
  :: Figure
  :: curve_events (lookup (recall d) (KStr "micro") [])
       (lookup (precision d) (KStr "micro") [])
       ("Average precision score, micro-averaged over all classes: AP="
        ++ format_2f lib (lookup (average_precision d) (KStr "micro") 0))%string
  ++ cell_17_events lib n_classes d.

Definition multilabel_returned (lib : Library) (y : labels) (n_classes : nat)
  (X_train X_test : matrix) (Y_train Y_test : indicator) (y_score : matrix)
  : list value :=
  [IntMatrix (label_binarize lib y [0; 1; 2]%Z); Matrix X_train; Matrix X_test;
   IntMatrix Y_train; IntMatrix Y_test; Matrix y_score]
  ++ flat_map (class_values lib Y_test y_score) (seq 0 n_classes)
  ++ micro_values lib Y_test y_score
  ++ Array f_scores :: map (fun _ => Array x_grid) f_scores.

(** ** Runs that differ only in numpy's global generator *)

Definition same_but_global {lib : Library} (w1 w2 : world lib) : Prop :=
  random_state w1 = random_state w2 /\ trace w1 = trace w2 /\ returned w1 = returned w2.

(** Two outcomes agree: the same exception, or the same value in states that
    differ at most in the global generator. *)
Definition agree {lib : Library} {A} (r1 r2 : result (A * world lib)) : Prop :=
  match r1, r2 with
  | Ok (a1, w1), Ok (a2, w2) => a1 = a2 /\ same_but_global w1 w2
  | Raise e1, Raise e2 => e1 = e2
  | _, _ => False
  end.

(** A computation that never consults the global generator. *)
Definition oblivious {lib : Library} {A} (c : M lib A) : Prop :=
  forall w1 w2, same_but_global w1 w2 -> agree (c w1) (c w2).

(** ** Where a shown array comes from *)

(** The arrays an event draws. *)
Definition drawn (e : event) : list vec :=
  match e with
  | Step x y _ => [x; y]
  | FillBetween x y _ => [x; y]
  | Plot l => [xdata l; ydata l]
  | _ => []
  end.

(** [a] is, number for number, an array some library call returned. *)
Definition from_library (rs : list value) (a : vec) : Prop :=
  exists u, In (Array u) rs /\ Forall2 Qeq u a.

Fixpoint same_arrayb (u v : vec) : bool :=
  match u, v with
  | [], [] => true
  | x :: u', y :: v' => Qeq_bool x y && same_arrayb u' v'
  | _, _ => false
  end.

Definition from_libraryb (rs : list value) (a : vec) : bool :=
  existsb (fun v => match v with Array u => same_arrayb u a | _ => false end) rs.

(** Every array a run draws was returned by a library call, as a
    proposition and as a check on a concrete run. *)
Definition draws_only_library_arrays (lib : Library) (iris : dataset) (g : rng lib)
  : Prop :=
  forall d w, run lib iris g = Ok (d, w) ->
  forall e a, In e (trace w) -> In a (drawn e) -> from_library (returned w) a.

Definition draws_only_library_arraysb (lib : Library) (iris : dataset) (g : rng lib)
  : bool :=
  match run lib iris g with
  | Ok (_, w) => forallb (fun e => forallb (from_libraryb (returned w)) (drawn e)) (trace w)
  | Raise _ => true
  end.

(** The events that show text or a value rather than a figure. *)
Definition is_text (e : event) : bool :=
  match e with
  | Print _ => true
  | Display _ => true
  | _ => false
  end.

(** ** Further notions about the cells *)

(** The lines drawn by [plt.plot], in order. *)
Fixpoint plotted (t : list event) : list line :=
  match t with
  | [] => []
  | Plot l :: t' => l :: plotted t'
  | _ :: t' => plotted t'
  end.

(** The keys of a dictionary, in insertion order. *)
Definition keys {A} (d : dict A) : list key := map fst d.

(** A computation that leaves numpy's global generator as it found it. *)
Definition keeps_global {lib : Library} {A} (c : M lib A) : Prop :=
  forall w a w', c w = Ok (a, w') -> np_global w' = np_global w.

(** The keys after [d[k] = v]: a new key goes last, a known key stays where
    it is. *)
Definition insert_key (k : key) (ks : list key) : list key :=
  if existsb (key_eqb k) ks then ks else ks ++ [k].

(** The keys cell 13 fills: one per class, then ["micro"]. *)
Definition cell_13_keys (n_classes : nat) : list key :=
  map KInt (seq 0 n_classes) ++ [KStr "micro"].

(** ** The arithmetic of cell 17 in binary64

    The iso-F1 loop as the interpreter computes it, on IEEE 754 doubles.
    Decimal literals denote the nearest double, as in Python. *)
Module B64.

#[local] Set Warnings "-inexact-float".

(** The double of a small integer, as [np.arange] yields it. *)
Fixpoint of_nat (k : nat) : float :=
  match k with
  | O => 0%float
  | S k' => (of_nat k' + 1)%float
  end.

(** [np.linspace(start, stop, num)] as numpy computes it:
    [step = (stop - start) / (num - 1)], [y = arange(num) * step + start],
    and the last point set to [stop]. *)
Definition linspace (start stop : float) (num : nat) : list float :=
  let step := ((stop - start) / of_nat (num - 1))%float in
  map (fun k => if Nat.eqb k (num - 1) then stop else (of_nat k * step + start)%float)
      (seq 0 num).

Definition f_scores : list float := linspace 0.2%float 0.8%float 4.
Definition x_grid : list float := linspace 0.01%float 1%float 50.

(** [y = f_score * x / (2 * x - f_score)]. *)
Definition iso_f1 (f_score x : float) : float :=
  (f_score * x / (2 * x - f_score))%float.

(** [2 * P * R / (P + R)]. *)
Definition F1 (p r : float) : float := (2 * p * r / (p + r))%float.

(** [y >= 0], pointwise (false on a NaN). *)
Definition ge0 (y : list float) : list bool := map (fun v => (0 <=? v)%float) y.

(** What one pass of the loop hands to [plt.plot]: [x[y >= 0]] and
    [y[y >= 0]]. *)
Definition iso_line (f_score : float) : list float * list float :=
  let y := map (iso_f1 f_score) x_grid in
  (mask x_grid (ge0 y), mask y (ge0 y)).

(** [v] is [f] or one of the two doubles next to it. *)
Definition within_one_ulp (v f : float) : bool :=
  ((v =? f) || (v =? next_up f) || (v =? next_down f))%float.

(** Every grid point with [y >= 0], at each of the four levels, has an F1
    score within one unit in the last place of the level, as a check. *)
Definition all_within_one_ulp : bool :=
  forallb (fun f =>
             forallb (fun x =>
                        if (0 <=? iso_f1 f x)%float
                        then within_one_ulp (F1 x (iso_f1 f x)) f
                        else true)
                     x_grid)
          f_scores.

End B64.

(** * Properties *)

(** ** The iso-F1 curves of cell 17 *)

Lemma grid_ok_spec fs xs :
  grid_ok fs xs = true ->
  forall f x, In f fs -> In x xs -> ~ x == 0 /\ ~ 2 * x - f == 0.
Proof.
  unfold grid_ok. rewrite forallb_forall. intros H f x Hf Hx.
  specialize (H f Hf). rewrite forallb_forall in H. specialize (H x Hx).
  apply andb_true_iff in H. destruct H as [H1 H2].
  apply negb_true_iff in H1, H2.
  split; intros E; apply Qeq_bool_iff in E; congruence.
Qed.

Lemma notebook_grid_ok : grid_ok f_scores x_grid = true.
Proof. vm_compute. reflexivity. Qed.

Lemma f_scores_values :
  Forall2 Qeq f_scores [2 # 10; 4 # 10; 6 # 10; 8 # 10].
Proof. repeat constructor. Qed.

Lemma x_grid_length : length x_grid = 50%nat.
Proof. reflexivity. Qed.

(** Wherever the formula does not divide by zero, the point it gives has
    F1 score [f]. *)
Lemma F1_iso_f1 (f x : Q) :
  ~ x == 0 -> ~ 2 * x - f == 0 -> F1 x (iso_f1 f x) == f.
Proof.
  intros Hx Hd. unfold F1, iso_f1. field. split; [exact Hd|].
  intros E. apply Hx.
  assert (E2 : x * x == 0) by (setoid_replace (x * x) with ((x * (2 * x - f) + f * x) * (1 # 2)) by ring; rewrite E; ring).
  destruct (Qmult_integral _ _ E2); assumption.
Qed.

(** C9: the denominator [2 * x - f_score] of the iso-F1 formula is nonzero at
    every point of the grid, for each of the four F1 levels. *)
Theorem iso_f1_denominator_nonzero (f_score x : Q) :
  In f_score f_scores -> In x x_grid -> ~ 2 * x - f_score == 0.
Proof.
  intros Hf Hx. exact (proj2 (grid_ok_spec _ _ notebook_grid_ok _ _ Hf Hx)).
Qed.

(** ** Arrays and dictionaries *)

Lemma mask_select_ok {A} (a : list A) (m : list bool) :
  length a = length m -> mask_select a m = Ok (mask a m).
Proof.
  revert m. induction a as [|x a IH]; intros [|b m] H; simpl in H; try discriminate.
  - reflexivity.
  - simpl. rewrite IH by lia. unfold mask. simpl. destruct b; reflexivity.
Qed.

(** Two arrays selected by one mask stay aligned. *)
Lemma mask_combine {A B} (a : list A) (b : list B) (f : B -> bool) :
  length a = length b ->
  combine (mask a (map f b)) (mask b (map f b)) = filter (fun s => f (snd s)) (combine a b).
Proof.
  revert b. induction a as [|x a IH]; intros [|y b] H; simpl in H; try discriminate.
  - reflexivity.
  - unfold mask in *. simpl. destruct (f y); simpl; rewrite IH by lia; reflexivity.
Qed.

Lemma mask_same_length {A B} (a : list A) (b : list B) (m : list bool) :
  length a = length b -> length (mask a m) = length (mask b m).
Proof.
  revert b m. induction a as [|x a IH]; intros [|y b] m H; simpl in H; try discriminate.
  - reflexivity.
  - destruct m as [|c m]; [reflexivity|].
    unfold mask in *. simpl. destruct c; simpl; rewrite ?(IH b m) by lia; auto.
Qed.

Lemma c__ok (a b : matrix) :
  length a = length b -> exists m, c_ a b = Ok m /\ length m = length a.
Proof.
  revert b. induction a as [|r a IH]; intros [|s b] H; simpl in H; try discriminate.
  - exists []. split; reflexivity.
  - destruct (IH b) as (m & E & L); [lia|].
    exists ((r ++ s) :: m). simpl. rewrite E. split; [reflexivity|simpl; lia].
Qed.

Lemma column_ok {A} (i : nat) (m : list (list A)) :
  Forall (fun row => (i < length row)%nat) m -> exists c, column i m = Ok c.
Proof.
  induction 1 as [|row m Hrow _ IH].
  - exists []. reflexivity.
  - destruct IH as [c E].
    destruct (nth_error row i) as [v|] eqn:N.
    + exists (v :: c). simpl. rewrite N, E. reflexivity.
    + apply nth_error_None in N. lia.
Qed.

Lemma key_eqb_refl (k : key) : key_eqb k k = true.
Proof. destruct k; simpl; [apply Nat.eqb_refl | apply String.eqb_refl]. Qed.

Lemma key_eqb_eq (a b : key) : key_eqb a b = true <-> a = b.
Proof.
  destruct a, b; simpl; try (split; intros; discriminate).
  - rewrite Nat.eqb_eq. split; congruence.
  - rewrite String.eqb_eq. split; congruence.
Qed.

Lemma dict_get_set {A} (d : dict A) (k k' : key) (v : A) :
  dict_get (dict_set d k v) k' = if key_eqb k' k then Ok v else dict_get d k'.
Proof.
  induction d as [|[k0 v0] d IH]; simpl.
  - destruct (key_eqb k' k); reflexivity.
  - destruct (key_eqb k k0) eqn:E; simpl.
    + apply key_eqb_eq in E. subst k0.
      destruct (key_eqb k' k); reflexivity.
    + rewrite IH. destruct (key_eqb k' k0) eqn:E0; [|reflexivity].
      apply key_eqb_eq in E0. subst k0.
      destruct (key_eqb k' k) eqn:E1; [|reflexivity].
      apply key_eqb_eq in E1. subst k'. rewrite key_eqb_refl in E. discriminate.
Qed.

Lemma dict_get_set_same {A} (d : dict A) (k : key) (v : A) :
  dict_get (dict_set d k v) k = Ok v.
Proof. rewrite dict_get_set, key_eqb_refl. reflexivity. Qed.

Lemma dict_get_set_other {A} (d : dict A) (k k' : key) (v : A) :
  k' <> k -> dict_get (dict_set d k v) k' = dict_get d k'.
Proof.
  intros N. rewrite dict_get_set.
  destruct (key_eqb k' k) eqn:E; [apply key_eqb_eq in E; contradiction | reflexivity].
Qed.

(** [ceil(0.5 * n)], the size of the test set. *)
Lemma ceil_half (n : nat) :
  Qceiling ((1 # 2) * inject_Z (Z.of_nat n)) = Z.of_nat ((n + 1) / 2).
Proof.
  rewrite Nat2Z.inj_div, Nat2Z.inj_add.
  change (Z.of_nat 1) with 1%Z. change (Z.of_nat 2) with 2%Z.
  generalize (Z.of_nat n). intros z.
  unfold Qceiling, Qfloor, Qopp, Qmult, inject_Z.
  cbn [Qnum Qden]. rewrite Z.mul_1_l. change (Z.pos (2 * 1)) with 2%Z.
  Z.div_mod_to_equations. lia.
Qed.

(** ** Rules for running a cell *)

Section Rules.

Variable lib : Library.

Lemma wp_elim {A} (c : M lib A) (Q : A -> world lib -> Prop) w :
  wp c Q w -> exists a w', c w = Ok (a, w') /\ Q a w'.
Proof.
  unfold wp. destruct (c w) as [[a w']|e]; [|contradiction].
  intros H. exists a, w'. split; [reflexivity|assumption].
Qed.

Lemma wp_mono {A} (c : M lib A) (Q Q' : A -> world lib -> Prop) w :
  wp c Q w -> (forall a w', Q a w' -> Q' a w') -> wp c Q' w.
Proof.
  unfold wp. destruct (c w) as [[a w']|e]; [|contradiction]. auto.
Qed.

Lemma wp_ret {A} (a : A) (Q : A -> world lib -> Prop) w :
  Q a w -> wp (ret a) Q w.
Proof. auto. Qed.

Lemma wp_bind {A B} (c : M lib A) (k : A -> M lib B) (Q : B -> world lib -> Prop) w :
  wp c (fun a w' => wp (k a) Q w') w -> wp (bind c k) Q w.
Proof.
  unfold wp, bind. destruct (c w) as [[a w']|e]; auto.
Qed.

Lemma wp_lift {A} (r : result A) (a : A) (Q : A -> world lib -> Prop) w :
  r = Ok a -> Q a w -> wp (lift r) Q w.
Proof. intros ->. auto. Qed.

Lemma wp_emit (e : event) (Q : unit -> world lib -> Prop) w :
  Q tt {| np_global := np_global w; random_state := random_state w;
          trace := trace w ++ [e]; returned := returned w |} ->
  wp (emit e) Q w.
Proof. auto. Qed.

Lemma wp_assign_random_state (seed : Z) (Q : unit -> world lib -> Prop) w :
  Q tt {| np_global := np_global w; random_state := Some (RandomState lib seed);
          trace := trace w; returned := returned w |} ->
  wp (assign_random_state seed) Q w.
Proof. auto. Qed.

Lemma wp_draw {A} (f : rng lib -> A * rng lib) (Q : A -> world lib -> Prop) w r :
  random_state w = Some r ->
  (forall a r', f r = (a, r') ->
     Q a {| np_global := np_global w; random_state := Some r';
            trace := trace w; returned := returned w |}) ->
  wp (draw RsNotebook f) Q w.
Proof.
  unfold wp, draw. intros -> H. destruct (f r) as [a r'] eqn:E. auto.
Qed.

Lemma wp_returns {A} (c : M lib A) (vals : A -> list value) (Q : A -> world lib -> Prop) w :
  wp c (fun a w' => Q a {| np_global := np_global w'; random_state := random_state w';
                           trace := trace w'; returned := returned w' ++ vals a |}) w ->
  wp (returns c vals) Q w.
Proof.
  unfold wp, returns. destruct (c w) as [[a w']|e]; auto.
Qed.

(** A loop keeps an invariant indexed by the elements already visited. *)
Lemma wp_for_in {A S} (I : list A -> S -> world lib -> Prop) (l : list A)
  (body : A -> S -> M lib S) (s : S) (Q : S -> world lib -> Prop) w :
  I [] s w ->
  (forall seen v rest s w, l = seen ++ v :: rest -> I seen s w ->
     wp (body v s) (I (seen ++ [v])) w) ->
  (forall s w, I l s w -> Q s w) ->
  wp (for_in l body s) Q w.
Proof.
  intros H0 Hbody HQ.
  enough (G : forall rest seen s w, l = seen ++ rest -> I seen s w ->
                wp (for_in rest body s) Q w)
    by (apply (G l []); auto).
  clear s w H0. induction rest as [|v rest IH]; intros seen s w El HI; simpl.
  - apply wp_ret. apply HQ. rewrite app_nil_r in El. subst l. exact HI.
  - apply wp_bind. eapply wp_mono; [apply (Hbody seen v rest); assumption|].
    intros s' w' HI'. apply (IH (seen ++ [v])); [|exact HI'].
    rewrite <- app_assoc. exact El.
Qed.

End Rules.

Ltac wp_simpl := cbn [np_global random_state trace returned fst snd].

Ltac wp_step :=
  lazymatch goal with
  | |- wp (bind _ _) _ _ => apply wp_bind
  | |- wp (ret _) _ _ => apply wp_ret
  | |- wp (emit _) _ _ => apply wp_emit
  | |- wp (assign_random_state _) _ _ => apply wp_assign_random_state
  | |- wp (returns _ _) _ _ => apply wp_returns
  | |- wp (draw RsNotebook _) _ _ =>
      eapply wp_draw; [wp_simpl; reflexivity | intros ? ? ?]
  end;
  wp_simpl.

(** ** The cells, one by one *)

Lemma cell_4_wp lib (C : Contract lib) iris Q w :
  length (data iris) = length (target iris) ->
  (forall X X2 y2 X_train X_test y_train y_test classifier r3,
     cell_4_steps lib iris X X2 y2 X_train X_test y_train y_test classifier r3 ->
     length X = length (data iris) ->
     Q (X, target iris, y_train, y_test, decision_function lib classifier X_test)
       {| np_global := np_global w; random_state := Some r3; trace := trace w;
          returned := returned w ++
            [Matrix (data iris); Ints (target iris);
             Matrix (fst (randn lib (length (data iris)) (200 * shape1 (data iris))
                                (RandomState lib 0)));
             Matrix X; Matrix X_train; Matrix X_test; Ints y_train; Ints y_test;
             Array (decision_function lib classifier X_test)] |}) ->
  wp (cell_4 lib iris) Q w.
Proof.
  intros Hwf HQ. unfold cell_4.
  do 5 wp_step.
  do 3 wp_step. rename a into noise, r' into r1, H into Ernd.
  assert (Hn : length noise = length (data iris))
    by (generalize (randn_rows C (length (data iris)) (200 * shape1 (data iris))
                      (RandomState lib 0)); rewrite Ernd; auto).
  destruct (c__ok (data iris) noise) as (X & EX & LX); [congruence|].
  do 2 wp_step. eapply wp_lift; [exact EX|]. wp_simpl.
  set (m := map (fun v => (v <? 2)%Z) (target iris)).
  assert (Lm : length m = length (target iris)) by (unfold m; apply length_map).
  wp_step. eapply wp_lift; [apply mask_select_ok; congruence|].
  wp_step. eapply wp_lift; [apply mask_select_ok; congruence|].
  do 3 wp_step. destruct a as [[[X_train X_test] y_train] y_test].
  rename r' into r2, H into Esplit.
  do 2 wp_step. rename a into classifier, r' into r3, H into Efit.
  do 3 wp_step.
  specialize (HQ X (mask X m) (mask (target iris) m) X_train X_test y_train y_test classifier r3).
  rewrite <- !app_assoc. cbn [app]. rewrite Ernd in HQ. apply HQ; [|exact LX].
  exists noise, r1, r2. unfold m in *.
  repeat split; try assumption; apply mask_select_ok; congruence.
Qed.

Lemma cell_5_wp lib y_train Q w :
  Q tt {| np_global := np_global w; random_state := random_state w;
          trace := trace w ++ [Display (Ints y_train)]; returned := returned w |} ->
  wp (cell_5 lib y_train) Q w.
Proof. intros H. unfold cell_5. wp_step. exact H. Qed.

Lemma cell_7_wp lib y_test y_score Q w :
  Q (average_precision_score lib y_test y_score)
    {| np_global := np_global w; random_state := random_state w;
       trace := trace w ++
         [Print ("Average precision-recall score: "
                 ++ format_2f lib (average_precision_score lib y_test y_score))%string];
       returned := returned w ++ [Scalar (average_precision_score lib y_test y_score)] |} ->
  wp (cell_7 lib y_test y_score) Q w.
Proof. intros H. unfold cell_7. repeat wp_step. exact H. Qed.

Lemma cell_9_wp lib y_test y_score ap Q w :
  (forall p r t, precision_recall_curve lib y_test y_score = (p, r, t) ->
     Q tt {| np_global := np_global w; random_state := random_state w;
             trace := trace w ++
               curve_events r p ("2-class Precision-Recall curve: AP=" ++ format_2f lib ap)%string;
             returned := returned w ++ [Array p; Array r; Array t] |}) ->
  wp (cell_9 lib y_test y_score ap) Q w.
Proof.
  intros H. unfold cell_9. do 3 wp_step.
  destruct (precision_recall_curve lib y_test y_score) as [[p r] t] eqn:E.
  repeat wp_step. rewrite <- !app_assoc. cbn [app]. apply (H p r t). reflexivity.
Qed.

Lemma in_combine_snd {A B} (a : list A) (b : list B) (y : B) :
  length a = length b -> In y b -> exists x, In (x, y) (combine a b).
Proof.
  revert b. induction a as [|x a IH]; intros [|y0 b] L H; simpl in *; try contradiction;
    try discriminate.
  destruct H as [->|H].
  - exists x. left. reflexivity.
  - destruct (IH b) as [x' Hx']; [lia|assumption|]. exists x'. right. exact Hx'.
Qed.

(** A split with [test_size=.5] under the library's contract. *)
Lemma split_half lib (C : Contract lib) {L : Type} (X : matrix) (y : list L) r
  X_train X_test y_train y_test r' :
  length X = length y ->
  train_test_split lib X y (1 # 2) r = ((X_train, X_test, y_train, y_test), r') ->
  Permutation (combine X_train y_train ++ combine X_test y_test) (combine X y) /\
  length X_train = length y_train /\
  length X_test = length y_test /\
  length X_train = (length X / 2)%nat /\
  length X_test = ((length X + 1) / 2)%nat.
Proof.
  intros Hl Esplit.
  pose proof (split_partition C X y (1 # 2) r Hl) as P.
  pose proof (split_test_size C X y (1 # 2) r) as T.
  rewrite Esplit in P, T. cbn [fst] in P, T.
  destruct P as (Ltr & Lte & P).
  specialize (T ltac:(discriminate) ltac:(discriminate)).
  rewrite ceil_half in T. apply Nat2Z.inj in T.
  split; [exact P|].
  split; [exact Ltr|]. split; [exact Lte|]. split; [|exact T].
  apply Permutation_length in P.
  rewrite length_app, !length_combine, <- Ltr, <- Lte, <- Hl, !Nat.min_id in P.
  rewrite T in P.
  assert (D := Nat.div_mod_eq (length X) 2).
  assert (D1 := Nat.div_mod_eq (length X + 1) 2).
  assert (B := Nat.mod_upper_bound (length X) 2 ltac:(lia)).
  assert (B1 := Nat.mod_upper_bound (length X + 1) 2 ltac:(lia)).
  lia.
Qed.

(** Every label a split hands out is a label it was given. *)
Lemma split_labels {A B} (a a1 a2 : list A) (b b1 b2 : list B) (y : B) :
  Permutation (combine a1 b1 ++ combine a2 b2) (combine a b) ->
  length a1 = length b1 -> length a2 = length b2 ->
  In y b1 \/ In y b2 -> exists x, In (x, y) (combine a b).
Proof.
  intros P L1 L2 H.
  assert (Hin : exists x, In (x, y) (combine a1 b1 ++ combine a2 b2)).
  { destruct H as [H|H].
    - destruct (in_combine_snd a1 b1 y L1 H) as [x Hx].
      exists x. apply in_or_app. left. exact Hx.
    - destruct (in_combine_snd a2 b2 y L2 H) as [x Hx].
      exists x. apply in_or_app. right. exact Hx. }
  destruct Hin as [x Hx]. exists x. apply (Permutation_in _ P). exact Hx.
Qed.

(** What the split of cell 4 gives when the library keeps its contract. *)
Lemma cell_4_split lib (C : Contract lib) iris X X2 y2 X_train X_test y_train y_test clf r3 :
  length (data iris) = length (target iris) ->
  length X = length (data iris) ->
  cell_4_steps lib iris X X2 y2 X_train X_test y_train y_test clf r3 ->
  combine X2 y2 = filter (fun s => (snd s <? 2)%Z) (combine X (target iris)) /\
  Permutation (combine X_train y_train ++ combine X_test y_test) (combine X2 y2) /\
  length X_train = length y_train /\
  length X_test = length y_test /\
  length X_train = (length X2 / 2)%nat /\
  length X_test = ((length X2 + 1) / 2)%nat.
Proof.
  intros Hwf LX (noise & r1 & r2 & Ernd & Ec & EX2 & Ey2 & Esplit & Efit).
  set (m := map (fun v => (v <? 2)%Z) (target iris)) in *.
  assert (Lm : length m = length (target iris)) by (unfold m; apply length_map).
  rewrite mask_select_ok in EX2 by congruence.
  rewrite mask_select_ok in Ey2 by congruence.
  injection EX2 as <-. injection Ey2 as <-.
  assert (L2 : length (mask X m) = length (mask (target iris) m))
    by (apply mask_same_length; congruence).
  split; [unfold m; apply (mask_combine X (target iris) (fun v => (v <? 2)%Z)); congruence|].
  exact (split_half lib C _ _ _ _ _ _ _ _ L2 Esplit).
Qed.

(** C6: in the binary case the notebook keeps the samples labelled below 2,
    trains the linear classifier on half of them and holds the other half
    out; the held-out labels and decision-function scores are what the
    average precision and the precision-recall curve are computed from. *)
Theorem binary_case_trains_on_half lib iris w :
  Contract lib ->
  length (data iris) = length (target iris) ->
  exists X X2 y2 X_train X_test y_train y_test classifier r3 w',
    binary_case lib iris w = Ok ((X, target iris), w') /\
    cell_4_steps lib iris X X2 y2 X_train X_test y_train y_test classifier r3 /\
    combine X2 y2 = filter (fun s => (snd s <? 2)%Z) (combine X (target iris)) /\
    Permutation (combine X_train y_train ++ combine X_test y_test) (combine X2 y2) /\
    length X_train = (length X2 / 2)%nat /\
    length X_test = ((length X2 + 1) / 2)%nat /\
    Forall (fun l => (l < 2)%Z) y_train /\
    Forall (fun l => (l < 2)%Z) y_test /\
    let y_score := decision_function lib classifier X_test in
    let ap := average_precision_score lib y_test y_score in
    let '(p, r, _) := precision_recall_curve lib y_test y_score in
    trace w' = trace w ++
      Display (Ints y_train)
      :: Print ("Average precision-recall score: " ++ format_2f lib ap)%string
      :: curve_events r p ("2-class Precision-Recall curve: AP=" ++ format_2f lib ap)%string.
Proof.
  intros C Hwf.
  assert (G : wp (binary_case lib iris)
                (fun res w' =>
                   exists X X2 y2 X_train X_test y_train y_test classifier r3,
                     res = (X, target iris) /\
                     cell_4_steps lib iris X X2 y2 X_train X_test y_train y_test classifier r3 /\
                     length X = length (data iris) /\
                     let y_score := decision_function lib classifier X_test in
                     let ap := average_precision_score lib y_test y_score in
                     let '(p, r, _) := precision_recall_curve lib y_test y_score in
                     trace w' = trace w ++
                       Display (Ints y_train)
                       :: Print ("Average precision-recall score: " ++ format_2f lib ap)%string
                       :: curve_events r p
                            ("2-class Precision-Recall curve: AP=" ++ format_2f lib ap)%string) w).
  { unfold binary_case. wp_step.
    apply cell_4_wp; [exact C|exact Hwf|].
    intros X X2 y2 X_train X_test y_train y_test classifier r3 Hsteps LX.
    wp_step. apply cell_5_wp. wp_simpl.
    wp_step. apply cell_7_wp. wp_simpl.
    wp_step. apply cell_9_wp. wp_simpl. intros p r t E.
    wp_step.
    exists X, X2, y2, X_train, X_test, y_train, y_test, classifier, r3.
    repeat split; try assumption.
    cbv zeta. rewrite E. rewrite <- !app_assoc. reflexivity. }
  apply wp_elim in G.
  destruct G as (res & w' & Erun & X & X2 & y2 & X_train & X_test & y_train & y_test
                 & classifier & r3 & -> & Hsteps & LX & Htrace).
  destruct (cell_4_split lib C iris X X2 y2 X_train X_test y_train y_test classifier r3
              Hwf LX Hsteps) as (Hfilter & P & Ltr & Lte & Ntr & Nte).
  exists X, X2, y2, X_train, X_test, y_train, y_test, classifier, r3, w'.
  assert (Hlab : forall l, In l y_train \/ In l y_test -> (l < 2)%Z).
  { intros l Hl.
    destruct (split_labels X2 X_train X_test y2 y_train y_test l P Ltr Lte Hl) as [x Hx].
    rewrite Hfilter in Hx.
    apply filter_In in Hx. destruct Hx as [_ Hx]. cbn [snd] in Hx.
    apply Z.ltb_lt. exact Hx. }
  repeat (split; [assumption|]).
  split; [apply Forall_forall; intros l Hl; apply Hlab; left; exact Hl|].
  split; [apply Forall_forall; intros l Hl; apply Hlab; right; exact Hl|].
  exact Htrace.
Qed.

(** ** The multi-label cells *)

Lemma class_curve_wp lib Y_test y_score i d Q w :
  (exists yt, column i Y_test = Ok yt) ->
  (exists ys, column i y_score = Ok ys) ->
  Q (add_class lib Y_test y_score d i)
    {| np_global := np_global w; random_state := random_state w; trace := trace w;
       returned := returned w ++ class_values lib Y_test y_score i |} ->
  wp (class_curve lib Y_test y_score i d) Q w.
Proof.
  intros [yt Eyt] [ys Eys] H. unfold class_curve.
  unfold add_class, class_values, col in H. rewrite Eyt, Eys in H.
  wp_step. eapply wp_lift; [exact Eyt|].
  wp_step. eapply wp_lift; [exact Eys|].
  do 3 wp_step.
  destruct (precision_recall_curve lib yt ys) as [[p r] t].
  wp_step. eapply wp_lift; [exact Eyt|].
  wp_step. eapply wp_lift; [exact Eys|].
  do 4 wp_step. cbn [curve_values] in *. rewrite <- app_assoc. exact H.
Qed.

Lemma class_loop_wp lib Y_test y_score l d Q w :
  (forall i, In i l -> exists yt, column i Y_test = Ok yt) ->
  (forall i, In i l -> exists ys, column i y_score = Ok ys) ->
  Q (fold_left (add_class lib Y_test y_score) l d)
    {| np_global := np_global w; random_state := random_state w; trace := trace w;
       returned := returned w ++ flat_map (class_values lib Y_test y_score) l |} ->
  wp (for_in l (class_curve lib Y_test y_score) d) Q w.
Proof.
  intros HY Hs H.
  apply (wp_for_in lib
           (fun seen d' w' =>
              d' = fold_left (add_class lib Y_test y_score) seen d /\
              w' = {| np_global := np_global w; random_state := random_state w;
                      trace := trace w;
                      returned := returned w
                                  ++ flat_map (class_values lib Y_test y_score) seen |})).
  - split; [reflexivity|]. cbn [flat_map]. rewrite app_nil_r. destruct w; reflexivity.
  - intros seen v rest d' w' El [-> ->].
    assert (Hv : In v l) by (rewrite El; apply in_or_app; right; left; reflexivity).
    apply class_curve_wp; [apply HY, Hv | apply Hs, Hv |]. wp_simpl.
    split; [rewrite fold_left_app; reflexivity|].
    rewrite flat_map_app. cbn [flat_map]. rewrite app_nil_r, app_assoc. reflexivity.
  - intros d' w' [-> ->]. exact H.
Qed.

Lemma cell_13_wp lib n Y_test y_score Q w :
  (forall i, (i < n)%nat -> exists yt, column i Y_test = Ok yt) ->
  (forall i, (i < n)%nat -> exists ys, column i y_score = Ok ys) ->
  Q (cell_13_curves lib n Y_test y_score)
    {| np_global := np_global w; random_state := random_state w;
       trace := trace w ++
         [Print ("Average precision score, micro-averaged over all classes: "
                 ++ format_2f lib (average_precision_score_micro lib Y_test y_score))%string];
       returned := returned w ++ flat_map (class_values lib Y_test y_score) (seq 0 n)
                   ++ micro_values lib Y_test y_score |} ->
  wp (cell_13 lib n Y_test y_score) Q w.
Proof.
  intros HY Hs H. unfold cell_13. wp_step.
  apply class_loop_wp.
  { intros i Hi. apply HY. apply in_seq in Hi. lia. }
  { intros i Hi. apply Hs. apply in_seq in Hi. lia. }
  wp_simpl. unfold cell_13_curves, add_micro, micro_values in H.
  do 3 wp_step.
  destruct (precision_recall_curve lib (ravel Y_test) (ravel y_score)) as [[p r] t].
  do 4 wp_step. eapply wp_lift; [cbn [average_precision]; apply dict_get_set_same|].
  do 3 wp_step. cbn [curve_values] in *. rewrite <- !app_assoc. exact H.
Qed.

Lemma entries_add_class lib Y_test y_score d i j :
  entries (add_class lib Y_test y_score d i) (KInt j) =
  if Nat.eqb j i
  then (Ok (fst (fst (precision_recall_curve lib (col i Y_test) (col i y_score)))),
        Ok (snd (fst (precision_recall_curve lib (col i Y_test) (col i y_score)))),
        Ok (average_precision_score lib (col i Y_test) (col i y_score)))
  else entries d (KInt j).
Proof.
  unfold entries, add_class.
  destruct (precision_recall_curve lib (col i Y_test) (col i y_score)) as [[p r] t].
  cbn [precision recall average_precision fst snd].
  rewrite !dict_get_set. cbn [key_eqb]. destruct (Nat.eqb j i); reflexivity.
Qed.

Lemma entries_class_loop lib Y_test y_score l d j :
  entries (fold_left (add_class lib Y_test y_score) l d) (KInt j) =
  if existsb (Nat.eqb j) l
  then (Ok (fst (fst (precision_recall_curve lib (col j Y_test) (col j y_score)))),
        Ok (snd (fst (precision_recall_curve lib (col j Y_test) (col j y_score)))),
        Ok (average_precision_score lib (col j Y_test) (col j y_score)))
  else entries d (KInt j).
Proof.
  revert d. induction l as [|i l IH]; intros d; [reflexivity|].
  cbn [fold_left existsb]. rewrite IH, entries_add_class.
  destruct (existsb (Nat.eqb j) l); [rewrite orb_true_r; reflexivity|].
  rewrite orb_false_r. destruct (Nat.eqb j i) eqn:E; [|reflexivity].
  apply Nat.eqb_eq in E. subst i. reflexivity.
Qed.

(** After cell 13 every class below [n] has its three entries. *)
Lemma cell_13_class_entries lib n Y_test y_score i :
  (i < n)%nat ->
  entries (cell_13_curves lib n Y_test y_score) (KInt i) =
  (Ok (fst (fst (precision_recall_curve lib (col i Y_test) (col i y_score)))),
   Ok (snd (fst (precision_recall_curve lib (col i Y_test) (col i y_score)))),
   Ok (average_precision_score lib (col i Y_test) (col i y_score))).
Proof.
  intros Hi. unfold cell_13_curves.
  transitivity (entries (fold_left (add_class lib Y_test y_score) (seq 0 n)
                           {| precision := []; recall := []; average_precision := [] |})
                        (KInt i)).
  - unfold entries, add_micro.
    destruct (precision_recall_curve lib (ravel Y_test) (ravel y_score)) as [[p r] t].
    cbn [precision recall average_precision].
    rewrite !dict_get_set_other by discriminate. reflexivity.
  - rewrite entries_class_loop.
    replace (existsb (Nat.eqb i) (seq 0 n)) with true; [reflexivity|].
    symmetry. apply existsb_exists. exists i. split; [apply in_seq; lia|apply Nat.eqb_refl].
Qed.

(** ... and so has the key ["micro"]. *)
Lemma cell_13_micro_entries lib n Y_test y_score :
  entries (cell_13_curves lib n Y_test y_score) (KStr "micro") =
  (Ok (fst (fst (precision_recall_curve lib (ravel Y_test) (ravel y_score)))),
   Ok (snd (fst (precision_recall_curve lib (ravel Y_test) (ravel y_score)))),
   Ok (average_precision_score_micro lib Y_test y_score)).
Proof.
  unfold cell_13_curves, entries, add_micro.
  destruct (precision_recall_curve lib (ravel Y_test) (ravel y_score)) as [[p r] t].
  cbn [precision recall average_precision fst snd].
  rewrite !dict_get_set_same. reflexivity.
Qed.

Lemma lookup_ok {A} (d : dict A) (k : key) (v default : A) :
  dict_get d k = Ok v -> lookup d k default = v.
Proof. unfold lookup. intros ->. reflexivity. Qed.

Lemma entries_ok (d : curves) (k : key) p r ap :
  entries d k = (Ok p, Ok r, Ok ap) ->
  dict_get (precision d) k = Ok p /\ dict_get (recall d) k = Ok r /\
  dict_get (average_precision d) k = Ok ap.
Proof. unfold entries. intros E. injection E as -> -> ->. auto. Qed.

Lemma cell_15_wp lib d Q w :
  (exists p r ap, entries d (KStr "micro") = (Ok p, Ok r, Ok ap)) ->
  Q tt {| np_global := np_global w; random_state := random_state w;
          trace := trace w ++
            Figure
            :: curve_events (lookup (recall d) (KStr "micro") [])
                 (lookup (precision d) (KStr "micro") [])
                 ("Average precision score, micro-averaged over all classes: AP="
                  ++ format_2f lib (lookup (average_precision d) (KStr "micro") 0))%string;
          returned := returned w |} ->
  wp (cell_15 lib d) Q w.
Proof.
  intros (p & r & ap & E) H. apply entries_ok in E. destruct E as (Ep & Er & Eap).
  rewrite (lookup_ok _ _ _ _ Ep), (lookup_ok _ _ _ _ Er), (lookup_ok _ _ _ _ Eap) in H.
  unfold cell_15.
  repeat first [ wp_step
               | eapply wp_lift; [first [exact Ep | exact Er | exact Eap]|] ].
  rewrite <- !app_assoc. exact H.
Qed.

Lemma nth_error_in_range {A} (l : list A) (n : nat) (d : A) :
  (n < length l)%nat -> nth_error l n = Some (nth n l d).
Proof.
  revert n. induction l as [|x l IH]; intros [|n] H; simpl in *; try lia.
  - reflexivity.
  - apply IH. lia.
Qed.

Lemma iso_f1_curve_wp lib f l Q w :
  Q (Some (iso_line f))
    {| np_global := np_global w; random_state := random_state w;
       trace := trace w ++ iso_events lib f;
       returned := returned w ++ [Array x_grid] |} ->
  wp (iso_f1_curve lib f l) Q w.
Proof.
  intros H. unfold iso_f1_curve.
  do 3 wp_step.
  wp_step. eapply wp_lift; [apply mask_select_ok; unfold ge0; rewrite !length_map; reflexivity|].
  wp_step. eapply wp_lift; [apply mask_select_ok; unfold ge0; rewrite !length_map; reflexivity|].
  wp_step. unfold plot. do 3 wp_step.
  wp_step. eapply wp_lift.
  { rewrite (nth_error_in_range _ 45 0); [reflexivity|].
    rewrite length_map, x_grid_length. lia. }
  do 3 wp_step. rewrite <- app_assoc. exact H.
Qed.

Lemma rev_f_scores : exists fs, rev f_scores = last f_scores 0 :: fs.
Proof. eexists. reflexivity. Qed.

Lemma iso_loop_wp lib Q w :
  Q (Some (iso_line (last f_scores 0)))
    {| np_global := np_global w; random_state := random_state w;
       trace := trace w ++ flat_map (iso_events lib) f_scores;
       returned := returned w ++ map (fun _ => Array x_grid) f_scores |} ->
  wp (for_in f_scores (iso_f1_curve lib) None) Q w.
Proof.
  intros H.
  apply (wp_for_in lib
           (fun seen l w' =>
              l = match rev seen with [] => None | f :: _ => Some (iso_line f) end /\
              w' = {| np_global := np_global w; random_state := random_state w;
                      trace := trace w ++ flat_map (iso_events lib) seen;
                      returned := returned w ++ map (fun _ => Array x_grid) seen |})).
  - split; [reflexivity|]. cbn [flat_map map]. rewrite !app_nil_r. destruct w; reflexivity.
  - intros seen v rest l w' _ [_ ->]. apply iso_f1_curve_wp. wp_simpl.
    split; [rewrite rev_unit; reflexivity|].
    rewrite flat_map_app, map_app. cbn [flat_map map]. rewrite app_nil_r, !app_assoc.
    reflexivity.
  - intros l w' [-> ->]. destruct rev_f_scores as [fs ->]. exact H.
Qed.

Lemma in_zip_range_cycle {A} (n : nat) (cs : list A) (i : nat) (c : A) :
  In (i, c) (zip_range_cycle n cs) -> (i < n)%nat.
Proof.
  unfold zip_range_cycle. destruct cs as [|c0 cs]; [contradiction|].
  intros H. apply in_map_iff in H. destruct H as (j & E & Hj).
  injection E as <- _. apply in_seq in Hj. lia.
Qed.

Lemma class_line_wp lib d ic lines labels Q w :
  (exists p r ap, entries d (KInt (fst ic)) = (Ok p, Ok r, Ok ap)) ->
  Q (lines ++ [class_line_of d ic], labels ++ [class_label_of lib d ic])
    {| np_global := np_global w; random_state := random_state w;
       trace := trace w ++ [Plot (class_line_of d ic)];
       returned := returned w |} ->
  wp (class_line lib d ic (lines, labels)) Q w.
Proof.
  intros (p & r & ap & E) H. apply entries_ok in E. destruct E as (Ep & Er & Eap).
  unfold class_line_of, class_label_of in H.
  rewrite (lookup_ok _ _ _ _ Ep), (lookup_ok _ _ _ _ Er), (lookup_ok _ _ _ _ Eap) in H.
  destruct ic as [i c]. cbn [fst snd] in *. unfold class_line, plot.
  repeat first [ wp_step
               | eapply wp_lift; [first [exact Ep | exact Er | exact Eap]|] ].
  exact H.
Qed.

Lemma class_lines_wp lib d zs lines labels Q w :
  (forall ic, In ic zs -> exists p r ap, entries d (KInt (fst ic)) = (Ok p, Ok r, Ok ap)) ->
  Q (lines ++ map (class_line_of d) zs, labels ++ map (class_label_of lib d) zs)
    {| np_global := np_global w; random_state := random_state w;
       trace := trace w ++ map (fun ic => Plot (class_line_of d ic)) zs;
       returned := returned w |} ->
  wp (for_in zs (class_line lib d) (lines, labels)) Q w.
Proof.
  intros Hd H.
  apply (wp_for_in lib
           (fun seen s w' =>
              s = (lines ++ map (class_line_of d) seen,
                   labels ++ map (class_label_of lib d) seen) /\
              w' = {| np_global := np_global w; random_state := random_state w;
                      trace := trace w ++ map (fun ic => Plot (class_line_of d ic)) seen;
                      returned := returned w |})).
  - split; [cbn [map]; rewrite !app_nil_r; reflexivity|].
    cbn [map]. rewrite app_nil_r. destruct w; reflexivity.
  - intros seen v rest s w' El [-> ->].
    apply class_line_wp.
    { apply Hd. rewrite El. apply in_or_app. right. left. reflexivity. }
    wp_simpl. rewrite !map_app. cbn [map]. rewrite !app_assoc. split; reflexivity.
  - intros s w' [-> ->]. exact H.
Qed.

Lemma cell_17_wp lib n d Q w :
  (forall i, (i < n)%nat -> exists p r ap, entries d (KInt i) = (Ok p, Ok r, Ok ap)) ->
  (exists p r ap, entries d (KStr "micro") = (Ok p, Ok r, Ok ap)) ->
  Q tt {| np_global := np_global w; random_state := random_state w;
          trace := trace w ++ cell_17_events lib n d;
          returned := returned w ++ Array f_scores :: map (fun _ => Array x_grid) f_scores |} ->
  wp (cell_17 lib n d) Q w.
Proof.
  intros Hd (p & r & ap & E) H. apply entries_ok in E. destruct E as (Ep & Er & Eap).
  unfold cell_17_events, micro_line, micro_label in H.
  rewrite (lookup_ok _ _ _ _ Ep), (lookup_ok _ _ _ _ Er), (lookup_ok _ _ _ _ Eap) in H.
  unfold cell_17.
  do 6 wp_step. apply iso_loop_wp. wp_simpl.
  wp_step. eapply wp_lift; [reflexivity|].
  wp_step. eapply wp_lift; [exact Er|].
  wp_step. eapply wp_lift; [exact Ep|].
  wp_step. unfold plot. do 3 wp_step.
  wp_step. eapply wp_lift; [exact Eap|].
  wp_step. apply class_lines_wp.
  { intros [i c] Hic. apply Hd. cbn [fst]. eapply in_zip_range_cycle. exact Hic. }
  wp_simpl. repeat wp_step.
  rewrite <- !app_assoc. cbn [app].
  exact H.
Qed.

Lemma cell_11_wp lib X y r0 Q w :
  random_state w = Some r0 ->
  (forall X_train X_test Y_train Y_test classifier r2,
     cell_11_steps lib X y r0 X_train X_test Y_train Y_test classifier r2 ->
     Q (shape1 (label_binarize lib y [0; 1; 2]%Z), Y_test,
        ovr_decision_function lib classifier X_test)
       {| np_global := np_global w; random_state := Some r2; trace := trace w;
          returned := returned w ++
            [IntMatrix (label_binarize lib y [0; 1; 2]%Z); Matrix X_train; Matrix X_test;
             IntMatrix Y_train; IntMatrix Y_test;
             Matrix (ovr_decision_function lib classifier X_test)] |}) ->
  wp (cell_11 lib X y) Q w.
Proof.
  intros Hr HQ. unfold cell_11. do 5 wp_step.
  eapply wp_draw; [wp_simpl; exact Hr|]. intros [[[X_train X_test] Y_train] Y_test] r1 Esplit.
  wp_simpl. do 2 wp_step. rename a into classifier, r' into r2, H into Efit.
  do 4 wp_step. rewrite <- !app_assoc. cbn [app].
  apply HQ. exists r1. split; assumption.
Qed.

(** The shapes cell 13 relies on: with at least two samples the binarized
    labels have three columns, and so have the held-out labels and scores. *)
Lemma cell_11_shapes lib (C : Contract lib) X y r0 X_train X_test Y_train Y_test clf r2 :
  length X = length y -> (2 <= length X)%nat ->
  cell_11_steps lib X y r0 X_train X_test Y_train Y_test clf r2 ->
  shape1 (label_binarize lib y [0; 1; 2]%Z) = 3%nat /\
  Forall (fun row => length row = 3%nat) Y_test /\
  Forall (fun row => length row = 3%nat) (ovr_decision_function lib clf X_test).
Proof.
  intros Hl Hn (r1 & Esplit & Efit).
  set (Y := label_binarize lib y [0; 1; 2]%Z) in *.
  assert (HY : Forall (fun row => length row = 3%nat) Y)
    by (apply (binarize_columns C y [0; 1; 2]%Z); simpl; lia).
  assert (LY : length X = length Y) by (unfold Y; rewrite (binarize_rows C); exact Hl).
  destruct (split_half lib C X Y r0 _ _ _ _ _ LY Esplit) as (P & Ltr & Lte & Ntr & Nte).
  assert (Hrows : forall row, In row Y_train \/ In row Y_test -> length row = 3%nat).
  { intros row Hrow.
    destruct (split_labels X X_train X_test Y Y_train Y_test row P Ltr Lte Hrow) as [x Hx].
    apply in_combine_r in Hx. rewrite Forall_forall in HY. apply HY. exact Hx. }
  split; [|split].
  - destruct Y as [|row Y']; [simpl in LY; lia|]. inversion HY; subst. assumption.
  - apply Forall_forall. intros row Hrow. apply Hrows. right. exact Hrow.
  - pose proof (ovr_scores_columns C X_train Y_train r1 X_test) as S.
    rewrite Efit in S. cbn [fst] in S.
    assert (S1 : shape1 Y_train = 3%nat).
    { destruct Y_train as [|row Y']; [|apply Hrows; left; left; reflexivity].
      simpl in Ltr. rewrite Ltr in Ntr.
      assert (D := Nat.div_mod_eq (length X) 2).
      assert (B := Nat.mod_upper_bound (length X) 2 ltac:(lia)). lia. }
    rewrite S1 in S. exact S.
Qed.

Lemma columns_exist {A} (m : list (list A)) (n i : nat) :
  Forall (fun row => length row = n) m -> (i < n)%nat -> exists c, column i m = Ok c.
Proof.
  intros H Hi. apply column_ok. eapply Forall_impl; [|exact H].
  intros row E. cbn beta in E. lia.
Qed.

(** ** The two parts of the notebook *)

Lemma binary_case_wp lib (C : Contract lib) iris Q w :
  length (data iris) = length (target iris) ->
  (forall X X2 y2 X_train X_test y_train y_test clf r3,
     cell_4_steps lib iris X X2 y2 X_train X_test y_train y_test clf r3 ->
     length X = length (data iris) ->
     let y_score := decision_function lib clf X_test in
     Q (X, target iris)
       {| np_global := np_global w; random_state := Some r3;
          trace := trace w ++ binary_events lib y_train y_test y_score;
          returned := returned w
                      ++ binary_returned lib iris X X_train X_test y_train y_test y_score |}) ->
  wp (binary_case lib iris) Q w.
Proof.
  intros Hwf HQ. unfold binary_case.
  wp_step. apply cell_4_wp; [exact C|exact Hwf|].
  intros X X2 y2 X_train X_test y_train y_test clf r3 Hsteps LX.
  wp_step. apply cell_5_wp. wp_simpl.
  wp_step. apply cell_7_wp. wp_simpl.
  wp_step. apply cell_9_wp. wp_simpl. intros p r t Ecurve.
  wp_step.
  specialize (HQ X X2 y2 X_train X_test y_train y_test clf r3 Hsteps LX).
  cbv zeta in HQ. unfold binary_events, binary_returned in HQ.
  rewrite Ecurve in HQ. cbn [curve_values] in HQ.
  rewrite <- !app_assoc. cbn [app]. rewrite <- ?app_assoc in HQ. cbn [app] in HQ.
  exact HQ.
Qed.

Lemma multilabel_case_wp lib (C : Contract lib) X y r0 Q w :
  random_state w = Some r0 ->
  length X = length y ->
  (2 <= length X)%nat ->
  (forall X_train X_test Y_train Y_test clf r2,
     cell_11_steps lib X y r0 X_train X_test Y_train Y_test clf r2 ->
     let n_classes := shape1 (label_binarize lib y [0; 1; 2]%Z) in
     let y_score := ovr_decision_function lib clf X_test in
     Q (cell_13_curves lib n_classes Y_test y_score)
       {| np_global := np_global w; random_state := Some r2;
          trace := trace w ++ multilabel_events lib n_classes Y_test y_score;
          returned := returned w
                      ++ multilabel_returned lib y n_classes
                           X_train X_test Y_train Y_test y_score |}) ->
  wp (multilabel_case lib X y) Q w.
Proof.
  intros Hr Hl Hn HQ. unfold multilabel_case.
  wp_step. eapply cell_11_wp; [exact Hr|].
  intros X_train X_test Y_train Y_test clf r2 Hsteps. wp_simpl.
  destruct (cell_11_shapes lib C X y r0 X_train X_test Y_train Y_test clf r2)
    as (Hshape & HYt & Hys); [exact Hl|exact Hn|exact Hsteps|].
  specialize (HQ X_train X_test Y_train Y_test clf r2 Hsteps).
  cbv zeta in HQ.
  set (n := shape1 (label_binarize lib y [0; 1; 2]%Z)) in *.
  wp_step. apply cell_13_wp.
  { intros i Hi. apply (columns_exist Y_test 3 i HYt). lia. }
  { intros i Hi. apply (columns_exist _ 3 i Hys). lia. }
  wp_simpl.
  wp_step. apply cell_15_wp.
  { rewrite cell_13_micro_entries. eauto. }
  wp_simpl.
  wp_step. apply cell_17_wp.
  { intros i Hi. rewrite cell_13_class_entries by exact Hi. eauto. }
  { rewrite cell_13_micro_entries. eauto. }
  wp_simpl. wp_step.
  unfold multilabel_events, multilabel_returned in HQ.
  rewrite <- !app_assoc. cbn [app]. rewrite <- ?app_assoc in HQ. cbn [app] in HQ.
  exact HQ.
Qed.

(** Both parts of a run, step by step: the values the cells compute, the
    state between the two parts, and the final state. *)
Lemma run_steps lib (C : Contract lib) iris g :
  length (data iris) = length (target iris) ->
  (2 <= length (data iris))%nat ->
  exists X X2 y2 X_train X_test y_train y_test clf r3
         X_train' X_test' Y_train Y_test clf' r5,
    let w0 := {| np_global := g; random_state := None; trace := []; returned := [] |} in
    let y_score := decision_function lib clf X_test in
    let n_classes := shape1 (label_binarize lib (target iris) [0; 1; 2]%Z) in
    let y_score' := ovr_decision_function lib clf' X_test' in
    let d := cell_13_curves lib n_classes Y_test y_score' in
    let w1 := {| np_global := g; random_state := Some r3;
                 trace := binary_events lib y_train y_test y_score;
                 returned := binary_returned lib iris X X_train X_test
                               y_train y_test y_score |} in
    let w2 := {| np_global := g; random_state := Some r5;
                 trace := binary_events lib y_train y_test y_score
                          ++ multilabel_events lib n_classes Y_test y_score';
                 returned := binary_returned lib iris X X_train X_test y_train y_test y_score
                             ++ multilabel_returned lib (target iris) n_classes
                                  X_train' X_test' Y_train Y_test y_score' |} in
    cell_4_steps lib iris X X2 y2 X_train X_test y_train y_test clf r3 /\
    length X = length (data iris) /\
    cell_11_steps lib X (target iris) r3 X_train' X_test' Y_train Y_test clf' r5 /\
    binary_case lib iris w0 = Ok ((X, target iris), w1) /\
    multilabel_case lib X (target iris) w1 = Ok (d, w2) /\
    run lib iris g = Ok (d, w2).
Proof.
  intros Hwf Hn.
  set (w0 := {| np_global := g; random_state := None; trace := []; returned := [] |}).
  destruct (wp_elim lib (binary_case lib iris)
              (fun res w1 =>
                 exists X X2 y2 X_train X_test y_train y_test clf r3,
                   cell_4_steps lib iris X X2 y2 X_train X_test y_train y_test clf r3 /\
                   length X = length (data iris) /\
                   res = (X, target iris) /\
                   w1 = {| np_global := g; random_state := Some r3;
                           trace := binary_events lib y_train y_test
                                      (decision_function lib clf X_test);
                           returned := binary_returned lib iris X X_train X_test y_train y_test
                                         (decision_function lib clf X_test) |}) w0)
    as (res & w1 & Ebin & X & X2 & y2 & X_train & X_test & y_train & y_test & clf & r3
        & Hsteps & LX & -> & ->).
  { apply binary_case_wp; [exact C|exact Hwf|].
    intros X X2 y2 X_train X_test y_train y_test clf r3 Hsteps LX y_score.
    exists X, X2, y2, X_train, X_test, y_train, y_test, clf, r3.
    repeat split; assumption. }
  set (w1 := {| np_global := g; random_state := Some r3;
                trace := binary_events lib y_train y_test (decision_function lib clf X_test);
                returned := binary_returned lib iris X X_train X_test y_train y_test
                              (decision_function lib clf X_test) |}) in *.
  destruct (wp_elim lib (multilabel_case lib X (target iris))
              (fun d w =>
                 exists X_train' X_test' Y_train Y_test clf' r5,
                   cell_11_steps lib X (target iris) r3 X_train' X_test' Y_train Y_test clf' r5 /\
                   let n_classes := shape1 (label_binarize lib (target iris) [0; 1; 2]%Z) in
                   let y_score' := ovr_decision_function lib clf' X_test' in
                   d = cell_13_curves lib n_classes Y_test y_score' /\
                   w = {| np_global := g; random_state := Some r5;
                          trace := trace w1 ++ multilabel_events lib n_classes Y_test y_score';
                          returned := returned w1
                                      ++ multilabel_returned lib (target iris) n_classes
                                           X_train' X_test' Y_train Y_test y_score' |}) w1)
    as (d & w & Emul & X_train' & X_test' & Y_train & Y_test & clf' & r5 & Hsteps' & Ed & Ew).
  { eapply multilabel_case_wp; [exact C|reflexivity|congruence|lia|].
    intros X_train' X_test' Y_train Y_test clf' r5 Hsteps' n_classes y_score'.
    exists X_train', X_test', Y_train, Y_test, clf', r5. repeat split; assumption. }
  exists X, X2, y2, X_train, X_test, y_train, y_test, clf, r3,
         X_train', X_test', Y_train, Y_test, clf', r5.
  cbv zeta in *. subst d w. cbn [trace returned] in Emul.
  repeat (split; [first [assumption | reflexivity]|]).
  unfold run, notebook, bind. fold w0. rewrite Ebin. exact Emul.
Qed.

(** ** What the multi-label part shows *)




Lemma in_multilabel_events lib n Y_test y_score e :
  In e (cell_17_events lib n (cell_13_curves lib n Y_test y_score)) ->
  In e (multilabel_events lib n Y_test y_score).
Proof.
  intros H. unfold multilabel_events. do 2 right. apply in_or_app. right. exact H.
Qed.


(** ** The small library instance keeps the contract *)

Lemma combine_skipn_firstn {A B} (k : nat) (a : list A) (b : list B) :
  Permutation (combine (skipn k a) (skipn k b) ++ combine (firstn k a) (firstn k b))
              (combine a b).
Proof.
  revert a b. induction k as [|k IH]; intros a b.
  - simpl. rewrite app_nil_r. apply Permutation_refl.
  - destruct a as [|x a]; [apply Permutation_refl|].
    destruct b as [|y b].
    + simpl. rewrite combine_nil. apply Permutation_refl.
    + simpl. apply Permutation_sym, Permutation_cons_app, Permutation_sym, IH.
Qed.

Lemma toy_test_size (n : nat) (ts : Q) :
  0 <= ts -> ts <= 1 ->
  Z.of_nat (Nat.min (Nat.min n (Z.to_nat (Qceiling (ts * inject_Z (Z.of_nat n))))) n)
  = Qceiling (ts * inject_Z (Z.of_nat n)).
Proof.
  intros H0 H1.
  assert (Hn : 0 <= inject_Z (Z.of_nat n))
    by (change 0 with (inject_Z 0); rewrite <- Zle_Qle; lia).
  assert (Hlo : (0 <= Qceiling (ts * inject_Z (Z.of_nat n)))%Z).
  { change 0%Z with (Qceiling 0). apply Qceiling_resp_le.
    apply Qmult_le_0_compat; assumption. }
  assert (Hhi : (Qceiling (ts * inject_Z (Z.of_nat n)) <= Z.of_nat n)%Z).
  { rewrite <- (Qceiling_Z (Z.of_nat n)) at 2. apply Qceiling_resp_le.
    rewrite <- (Qmult_1_l (inject_Z (Z.of_nat n))) at 2.
    apply Qmult_le_compat_r; assumption. }
  lia.
Qed.

Lemma toy_contract : Contract Toy.lib.
Proof.
  constructor.
  - intros n m r. simpl. apply repeat_length.
  - intros L X y ts r Hl. simpl.
    set (k := Nat.min (length X) (Z.to_nat (Qceiling (ts * inject_Z (Z.of_nat (length X)))))).
    split; [rewrite !length_skipn; lia|].
    split; [rewrite !length_firstn; lia|].
    apply combine_skipn_firstn.
  - intros L X y ts r H0 H1. simpl.
    rewrite length_firstn. apply toy_test_size; assumption.
  - intros y classes. simpl. apply length_map.
  - intros y classes _. simpl. apply Forall_forall. intros row Hrow.
    apply in_map_iff in Hrow. destruct Hrow as (v & <- & _). apply length_map.
  - intros X Y r X'. simpl. apply Forall_forall. intros row Hrow.
    apply in_map_iff in Hrow. destruct Hrow as (v & <- & _).
    rewrite length_map, length_seq. reflexivity.
Qed.

(** ** Determinism *)

Section Oblivious.

Variable lib : Library.

Lemma oblivious_ret {A} (a : A) : oblivious (@ret lib A a).
Proof. intros w1 w2 H. simpl. auto. Qed.

Lemma oblivious_bind {A B} (c : M lib A) (k : A -> M lib B) :
  oblivious c -> (forall a, oblivious (k a)) -> oblivious (bind c k).
Proof.
  intros Hc Hk w1 w2 H. specialize (Hc w1 w2 H). unfold bind, agree in *.
  destruct (c w1) as [[a1 w1']|e1], (c w2) as [[a2 w2']|e2]; try contradiction.
  - destruct Hc as [<- Hw]. apply (Hk a1 w1' w2' Hw).
  - exact Hc.
Qed.

Lemma oblivious_lift {A} (r : result A) : oblivious (@lift lib A r).
Proof. intros w1 w2 H. unfold lift. destruct r; simpl; auto. Qed.

Lemma oblivious_emit (e : event) : oblivious (@emit lib e).
Proof.
  intros w1 w2 (Hr & Ht & Hv). simpl. unfold same_but_global. simpl.
  rewrite Hr, Ht, Hv. auto.
Qed.

Lemma oblivious_assign_random_state (seed : Z) :
  oblivious (@assign_random_state lib seed).
Proof.
  intros w1 w2 (Hr & Ht & Hv). simpl. unfold same_but_global. simpl. auto.
Qed.

(** A randomised call given the notebook's [random_state] draws from that
    object alone. *)
Lemma oblivious_draw {A} (f : rng lib -> A * rng lib) :
  oblivious (draw RsNotebook f).
Proof.
  intros w1 w2 (Hr & Ht & Hv). unfold draw. rewrite Hr.
  destruct (random_state w2) as [r|]; [|reflexivity].
  destruct (f r) as [a r']. simpl. unfold same_but_global. simpl. auto.
Qed.

Lemma oblivious_returns {A} (c : M lib A) (vals : A -> list value) :
  oblivious c -> oblivious (returns c vals).
Proof.
  intros Hc w1 w2 H. specialize (Hc w1 w2 H). unfold returns, agree in *.
  destruct (c w1) as [[a1 w1']|e1], (c w2) as [[a2 w2']|e2]; try contradiction.
  - destruct Hc as (<- & Hr & Ht & Hv). unfold same_but_global. simpl.
    rewrite Hv. auto.
  - exact Hc.
Qed.

Lemma oblivious_for_in {A S} (l : list A) (body : A -> S -> M lib S) (s : S) :
  (forall v s', oblivious (body v s')) -> oblivious (for_in l body s).
Proof.
  intros Hb. revert s. induction l as [|v l IH]; intros s; simpl.
  - apply oblivious_ret.
  - apply oblivious_bind; [apply Hb|]. intros s'. apply IH.
Qed.

End Oblivious.

Ltac oblivious_step :=
  lazymatch goal with
  | |- oblivious (bind _ _) => apply oblivious_bind; [|intros ?]
  | |- oblivious (ret _) => apply oblivious_ret
  | |- oblivious (lift _) => apply oblivious_lift
  | |- oblivious (emit _) => apply oblivious_emit
  | |- oblivious (assign_random_state _) => apply oblivious_assign_random_state
  | |- oblivious (draw RsNotebook _) => apply oblivious_draw
  | |- oblivious (returns _ _) => apply oblivious_returns
  | |- oblivious (for_in _ _ _) => apply oblivious_for_in; intros ? ?
  | |- oblivious (match ?x with _ => _ end) => destruct x
  end.

Lemma oblivious_notebook lib iris : oblivious (notebook lib iris).
Proof.
  unfold notebook, binary_case, multilabel_case,
    cell_4, cell_5, cell_7, cell_9, cell_11, cell_13, cell_15, cell_17.
  repeat oblivious_step.
  - unfold class_curve. repeat oblivious_step.
  - unfold iso_f1_curve, plot. repeat oblivious_step.
  - unfold plot. repeat oblivious_step.
  - unfold class_line, plot. repeat oblivious_step.
Qed.

(** The global generator is observable: a call with [random_state=None]
    is not oblivious. *)
Lemma draw_none_not_oblivious :
  ~ oblivious (draw (lib := Toy.lib) RsNone (randn Toy.lib 1 1)).
Proof.
  intros H.
  specialize (H {| np_global := 0%nat : rng Toy.lib; random_state := None;
                   trace := []; returned := [] |}
                {| np_global := 1%nat : rng Toy.lib; random_state := None;
                   trace := []; returned := [] |}).
  simpl in H. destruct H as [E _]; [repeat split|]. discriminate E.
Qed.

(** C10: the pipeline is deterministic.  Every randomised call is given the
    notebook's own [RandomState(0)], so two runs on the same data from any
    two states of numpy's global generator end alike: either both raise the
    same exception, or they leave the same curves and average precisions,
    show the same output and received the same values (scores included)
    from the library. *)
Theorem run_deterministic lib iris g1 g2 :
  agree (run lib iris g1) (run lib iris g2) /\
  (Contract lib ->
   length (data iris) = length (target iris) ->
   (2 <= length (data iris))%nat ->
   exists d w1 w2,
     run lib iris g1 = Ok (d, w1) /\ run lib iris g2 = Ok (d, w2) /\
     trace w1 = trace w2 /\ returned w1 = returned w2).
Proof.
  assert (A : agree (run lib iris g1) (run lib iris g2))
    by (unfold run; apply oblivious_notebook; repeat split).
  split; [exact A|]. intros C Hwf Hn.
  destruct (run_steps lib C iris g1 Hwf Hn)
    as (X & X2 & y2 & X_train & X_test & y_train & y_test & clf & r3
        & X_train' & X_test' & Y_train & Y_test & clf' & r5 & H).
  cbv zeta in H. destruct H as (_ & _ & _ & _ & _ & Erun).
  rewrite Erun in A. unfold agree in A.
  destruct (run lib iris g2) as [[d2 w2]|e]; [|contradiction].
  destruct A as (<- & _ & Ht & Hv).
  eexists _, _, w2. split; [exact Erun|]. split; [reflexivity|]. split; assumption.
Qed.

(** ** Where the shown arrays come from *)

Lemma same_arrayb_spec (u v : vec) : Forall2 Qeq u v -> same_arrayb u v = true.
Proof.
  induction 1 as [|x y u v Hxy _ IH]; [reflexivity|].
  simpl. rewrite IH, andb_true_r. apply Qeq_bool_iff. exact Hxy.
Qed.

Lemma from_libraryb_spec (rs : list value) (a : vec) :
  from_library rs a -> from_libraryb rs a = true.
Proof.
  intros (u & Hu & E). unfold from_libraryb. apply existsb_exists.
  exists (Array u). split; [exact Hu|]. apply same_arrayb_spec. exact E.
Qed.

Lemma returned_from_library (rs : list value) (a : vec) :
  In (Array a) rs -> from_library rs a.
Proof.
  intros H. exists a. split; [exact H|]. clear H.
  induction a as [|x a IH]; constructor; [reflexivity|exact IH].
Qed.

Lemma drawn_curve_events r p title e a :
  In e (curve_events r p title) -> In a (drawn e) -> a = r \/ a = p.
Proof.
  unfold curve_events. cbn [In].
  intros H Ha. repeat (destruct H as [<-|H]; [cbn [drawn In] in Ha; intuition|]).
  contradiction.
Qed.

Lemma drawn_cell_17 lib n d e a :
  In e (cell_17_events lib n d) -> In a (drawn e) ->
  (exists f, In f f_scores /\ e = Plot (iso_line f)) \/
  a = xdata (micro_line d) \/ a = ydata (micro_line d) \/
  exists ic, In ic (zip_range_cycle n colors) /\
             (a = xdata (class_line_of d ic) \/ a = ydata (class_line_of d ic)).
Proof.
  unfold cell_17_events. cbn [In]. intros H Ha.
  destruct H as [<-|H]; [contradiction|].
  apply in_app_or in H. destruct H as [H|H].
  - apply in_flat_map in H. destruct H as (f & Hf & H).
    unfold iso_events in H. cbn [In] in H.
    destruct H as [<-|[<-|[]]]; [|contradiction].
    left. exists f. split; [exact Hf|reflexivity].
  - cbn [In] in H. destruct H as [<-|H].
    + cbn [drawn In] in Ha. intuition.
    + apply in_app_or in H. destruct H as [H|H].
      * apply in_map_iff in H. destruct H as (ic & <- & Hic).
        cbn [drawn In] in Ha. do 3 right. exists ic. intuition.
      * cbn [In] in H.
        repeat (destruct H as [<-|H]; [contradiction|]). contradiction.
Qed.

(** Every array the multi-label part draws, the iso-F1 curves apart, was
    returned by [precision_recall_curve]. *)
Lemma drawn_multilabel lib n Y_test y_score e a :
  In e (multilabel_events lib n Y_test y_score) -> In a (drawn e) ->
  (exists f, In f f_scores /\ e = Plot (iso_line f)) \/
  In (Array a) (flat_map (class_values lib Y_test y_score) (seq 0 n)
                ++ micro_values lib Y_test y_score).
Proof.
  intros H Ha.
  set (d := cell_13_curves lib n Y_test y_score).
  pose proof (cell_13_micro_entries lib n Y_test y_score) as Em. fold d in Em.
  apply entries_ok in Em. destruct Em as (Emp & Emr & _).
  assert (Hmicro : forall a', a' = lookup (recall d) (KStr "micro") []
                              \/ a' = lookup (precision d) (KStr "micro") [] ->
                   In (Array a') (micro_values lib Y_test y_score)).
  { intros a' Ha'.
    rewrite (lookup_ok _ _ _ _ Emp), (lookup_ok _ _ _ _ Emr) in Ha'.
    unfold micro_values.
    destruct (precision_recall_curve lib (ravel Y_test) (ravel y_score)) as [[p r] t].
    cbn [fst snd curve_values app In] in *. destruct Ha' as [->| ->]; auto. }
  unfold multilabel_events in H. fold d in H. cbn [In] in H.
  destruct H as [<-|[<-|H]]; try contradiction.
  apply in_app_or in H. destruct H as [H|H].
  - right. apply in_or_app. right. apply Hmicro.
    exact (drawn_curve_events _ _ _ e a H Ha).
  - destruct (drawn_cell_17 lib n d e a H Ha) as [Hiso|[Hx|[Hy|(ic & Hic & Hxy)]]].
    + left. exact Hiso.
    + right. apply in_or_app. right. apply Hmicro. left. exact Hx.
    + right. apply in_or_app. right. apply Hmicro. right. exact Hy.
    + right. apply in_or_app. left. destruct ic as [i c].
      pose proof (in_zip_range_cycle _ _ _ _ Hic) as Hi.
      pose proof (cell_13_class_entries lib n Y_test y_score i Hi) as Ec. fold d in Ec.
      apply entries_ok in Ec. destruct Ec as (Ecp & Ecr & _).
      unfold class_line_of in Hxy. cbn [xdata ydata fst] in Hxy.
      rewrite (lookup_ok _ _ _ _ Ecp), (lookup_ok _ _ _ _ Ecr) in Hxy.
      apply in_flat_map. exists i. split; [apply in_seq; lia|].
      unfold class_values.
      destruct (precision_recall_curve lib (col i Y_test) (col i y_score)) as [[p r] t].
      cbn [fst snd curve_values app In] in *. destruct Hxy as [->| ->]; auto.
Qed.

Lemma drawn_binary lib y_train y_test y_score e a :
  In e (binary_events lib y_train y_test y_score) -> In a (drawn e) ->
  In (Array a) (curve_values (precision_recall_curve lib y_test y_score)).
Proof.
  unfold binary_events.
  destruct (precision_recall_curve lib y_test y_score) as [[p r] t].
  cbn [In]. intros [<-|[<-|H]] Ha; try contradiction.
  destruct (drawn_curve_events _ _ _ e a H Ha) as [->| ->]; cbn [curve_values In]; auto.
Qed.

Lemma draws_only_library_arraysb_spec lib iris g :
  draws_only_library_arrays lib iris g -> draws_only_library_arraysb lib iris g = true.
Proof.
  unfold draws_only_library_arrays, draws_only_library_arraysb. intros H.
  destruct (run lib iris g) as [[d w]|e]; [|reflexivity].
  apply forallb_forall. intros e He. apply forallb_forall. intros a Ha.
  apply from_libraryb_spec. exact (H d w eq_refl e a He Ha).
Qed.

Lemma iso_lines_shown lib n Y_test y_score f :
  In f f_scores -> In (Plot (iso_line f)) (multilabel_events lib n Y_test y_score).
Proof.
  intros Hf. apply in_multilabel_events. unfold cell_17_events.
  right. apply in_or_app. left. apply in_flat_map. exists f.
  split; [exact Hf|]. left. reflexivity.
Qed.

Lemma text_curve_events r p title e :
  In e (curve_events r p title) -> is_text e = false.
Proof.
  unfold curve_events. cbn [In]. intros H.
  repeat (destruct H as [<-|H]; [reflexivity|]). contradiction.
Qed.

Lemma text_cell_17 lib n d e :
  In e (cell_17_events lib n d) -> is_text e = false.
Proof.
  unfold cell_17_events. cbn [In]. intros H.
  destruct H as [<-|H]; [reflexivity|].
  apply in_app_or in H. destruct H as [H|H].
  - apply in_flat_map in H. destruct H as (f & _ & H).
    unfold iso_events in H. cbn [In] in H. destruct H as [<-|[<-|[]]]; reflexivity.
  - cbn [In] in H. destruct H as [<-|H]; [reflexivity|].
    apply in_app_or in H. destruct H as [H|H].
    + apply in_map_iff in H. destruct H as (ic & <- & _). reflexivity.
    + cbn [In] in H. repeat (destruct H as [<-|H]; [reflexivity|]). contradiction.
Qed.

(** The counterexample to C1 as stated: on the small instance the notebook
    draws an array that no library call returned (an iso-F1 curve). *)
Lemma iso_f1_curve_is_not_a_library_output :
  ~ draws_only_library_arrays Toy.lib Toy.iris 0%nat.
Proof.
  intros H. apply draws_only_library_arraysb_spec in H.
  vm_compute in H. discriminate H.
Qed.

(** C1, amended: every array drawn by [plt.step], [plt.fill_between] or
    [plt.plot], the iso-F1 curves apart, and every printed score or displayed
    value is the unmodified result of a library call; the iso-F1 curves, one
    per level of [f_scores], are computed by the notebook's own formula
    [y = f_score * x / (2 * x - f_score)] on [x = linspace(0.01, 1)],
    restricted to [y >= 0]. *)
Theorem drawn_arrays_from_library_except_iso_f1 lib iris g :
  Contract lib ->
  length (data iris) = length (target iris) ->
  (2 <= length (data iris))%nat ->
  exists d w,
    run lib iris g = Ok (d, w) /\
    (forall e a, In e (trace w) -> In a (drawn e) ->
       from_library (returned w) a \/ exists f, In f f_scores /\ e = Plot (iso_line f)) /\
    (forall f, In f f_scores -> In (Plot (iso_line f)) (trace w)) /\
    (forall s, In (Print s) (trace w) ->
       exists prefix ap, In (Scalar ap) (returned w) /\
                         s = (prefix ++ format_2f lib ap)%string) /\
    (forall v, In (Display v) (trace w) -> In v (returned w)).
Proof.
  intros C Hwf Hn.
  destruct (run_steps lib C iris g Hwf Hn)
    as (X & X2 & y2 & X_train & X_test & y_train & y_test & clf & r3
        & X_train' & X_test' & Y_train & Y_test & clf' & r5 & H).
  cbv zeta in H. destruct H as (_ & _ & _ & _ & _ & Erun).
  set (n := shape1 (label_binarize lib (target iris) [0; 1; 2]%Z)) in *.
  set (y_score := decision_function lib clf X_test) in *.
  set (y_score' := ovr_decision_function lib clf' X_test') in *.
  eexists _, _. split; [exact Erun|]. cbn [trace returned].
  split; [|split; [|split]].
  - intros e a He Ha. apply in_app_or in He. destruct He as [He|He].
    + left. apply returned_from_library. apply in_or_app. left.
      unfold binary_returned. apply in_or_app. right.
      exact (drawn_binary lib y_train y_test y_score e a He Ha).
    + destruct (drawn_multilabel lib n Y_test y_score' e a He Ha) as [Hiso|Hin].
      * right. exact Hiso.
      * left. apply returned_from_library. apply in_or_app. right.
        unfold multilabel_returned. apply in_or_app. right.
        apply in_app_or in Hin. apply in_or_app.
        destruct Hin as [Hin|Hin]; [left; exact Hin|].
        right. apply in_or_app. left. exact Hin.
  - intros f Hf. apply in_or_app. right. apply iso_lines_shown. exact Hf.
  - intros s Hs. apply in_app_or in Hs. destruct Hs as [Hs|Hs].
    + exists "Average precision-recall score: "%string,
             (average_precision_score lib y_test y_score).
      split.
      * apply in_or_app. left. unfold binary_returned. apply in_or_app. left.
        do 9 right. left. reflexivity.
      * unfold binary_events in Hs.
        destruct (precision_recall_curve lib y_test y_score) as [[p r] t].
        cbn [In] in Hs. destruct Hs as [Hs|[Hs|Hs]]; [discriminate Hs| |].
        -- injection Hs as <-. reflexivity.
        -- apply text_curve_events in Hs. discriminate Hs.
    + exists "Average precision score, micro-averaged over all classes: "%string,
             (average_precision_score_micro lib Y_test y_score').
      split.
      * apply in_or_app. right. unfold multilabel_returned, micro_values.
        apply in_or_app. right. apply in_or_app. right. apply in_or_app. left.
        apply in_or_app. right. left. reflexivity.
      * unfold multilabel_events in Hs. cbn [In] in Hs.
        destruct Hs as [Hs|[Hs|Hs]]; [|discriminate Hs|].
        -- injection Hs as <-. reflexivity.
        -- apply in_app_or in Hs. destruct Hs as [Hs|Hs].
           ++ apply text_curve_events in Hs. discriminate Hs.
           ++ apply text_cell_17 in Hs. discriminate Hs.
  - intros v Hv. apply in_app_or in Hv. destruct Hv as [Hv|Hv].
    + apply in_or_app. left. unfold binary_returned. apply in_or_app. left.
      unfold binary_events in Hv.
      destruct (precision_recall_curve lib y_test y_score) as [[p r] t].
      cbn [In] in Hv. destruct Hv as [Hv|[Hv|Hv]]; [|discriminate Hv|].
      * injection Hv as <-. do 6 right. left. reflexivity.
      * apply text_curve_events in Hv. discriminate Hv.
    + exfalso. unfold multilabel_events in Hv. cbn [In] in Hv.
      destruct Hv as [Hv|[Hv|Hv]]; [discriminate Hv|discriminate Hv|].
      apply in_app_or in Hv. destruct Hv as [Hv|Hv].
      * apply text_curve_events in Hv. discriminate Hv.
      * apply text_cell_17 in Hv. discriminate Hv.
Qed.

(** ** The theorems at concrete inputs *)

Lemma iso_f1_denominator_nonzero_witness :
  In (nth 3 f_scores 0) f_scores /\ In (nth 19 x_grid 0) x_grid /\
  ~ 2 * nth 19 x_grid 0 - nth 3 f_scores 0 == 0.
Proof.
  assert (Hf : In (nth 3 f_scores 0) f_scores) by (apply nth_In; vm_compute; lia).
  assert (Hx : In (nth 19 x_grid 0) x_grid) by (apply nth_In; vm_compute; lia).
  split; [exact Hf|]. split; [exact Hx|].
  exact (iso_f1_denominator_nonzero (nth 3 f_scores 0) (nth 19 x_grid 0) Hf Hx).
Defined.

Lemma binary_case_trains_on_half_witness :
  length (data Toy.iris) = length (target Toy.iris) /\
  exists (X X_train : matrix) (y_train : labels) w',
    binary_case Toy.lib Toy.iris Toy.world0 = Ok ((X, target Toy.iris), w') /\
    length X_train = length y_train /\ Forall (fun l => (l < 2)%Z) y_train.
Proof.
  split; [reflexivity|].
  destruct (binary_case_trains_on_half Toy.lib Toy.iris Toy.world0 toy_contract eq_refl)
    as (X & X2 & y2 & X_train & X_test & y_train & y_test & clf & r3 & w'
        & Erun & Hsteps & Hfilter & P & Ntr & Nte & Ftr & Fte & _).
  exists X, X_train, y_train, w'.
  split; [exact Erun|]. split; [|exact Ftr].
  destruct (cell_4_split Toy.lib toy_contract Toy.iris X X2 y2 X_train X_test y_train y_test
              clf r3 eq_refl) as (_ & _ & L & _); [|exact Hsteps|exact L].
  destruct Hsteps as (noise & r1 & r2 & Ernd & Ec & _).
  vm_compute in Ernd. injection Ernd as <- <-.
  vm_compute in Ec. injection Ec as <-. reflexivity.
Defined.


Lemma drawn_arrays_from_library_except_iso_f1_witness :
  length (data Toy.iris) = length (target Toy.iris) /\
  (2 <= length (data Toy.iris))%nat /\
  exists d w, run Toy.lib Toy.iris 0%nat = Ok (d, w) /\
              forall v, In (Display v) (trace w) -> In v (returned w).
Proof.
  split; [reflexivity|]. split; [simpl; lia|].
  destruct (drawn_arrays_from_library_except_iso_f1 Toy.lib Toy.iris 0%nat toy_contract
              eq_refl ltac:(simpl; lia))
    as (d & w & Erun & _ & _ & _ & Hdisplay).
  exists d, w. split; [exact Erun|exact Hdisplay].
Defined.

Lemma run_deterministic_witness :
  length (data Toy.iris) = length (target Toy.iris) /\
  (2 <= length (data Toy.iris))%nat /\
  exists d w1 w2,
    run Toy.lib Toy.iris 0%nat = Ok (d, w1) /\ run Toy.lib Toy.iris 7%nat = Ok (d, w2) /\
    trace w1 = trace w2 /\ returned w1 = returned w2.
Proof.
  split; [reflexivity|]. split; [simpl; lia|].
  exact (proj2 (run_deterministic Toy.lib Toy.iris 0%nat 7%nat) toy_contract
               eq_refl ltac:(simpl; lia)).
Defined.

(** * Further properties of the cells *)

(** ** The iso-F1 formula *)









(** Masking an array and its image by the same test on the image keeps the
    pairs aligned. *)
Lemma mask_map_points {A B} (g : A -> B) (p : B -> bool) (a : list A) :
  combine (mask a (map p (map g a))) (mask (map g a) (map p (map g a)))
  = filter (fun q => p (snd q)) (map (fun x => (x, g x)) a).
Proof.
  unfold mask. induction a as [|x a IH]; [reflexivity|].
  cbn [map combine filter snd]. destruct (p (g x)); cbn [map fst combine]; rewrite IH;
    reflexivity.
Qed.

(** The points of [iso_line f]: grid points paired with the value of the
    formula there, all with [y >= 0]; in exact arithmetic each has F1 score
    [f] when [f] is one of the four levels. *)
Lemma iso_line_points (f : Q) :
  length (xdata (iso_line f)) = length (ydata (iso_line f)) /\
  forall x y, In (x, y) (combine (xdata (iso_line f)) (ydata (iso_line f))) ->
    In x x_grid /\ y = iso_f1 f x /\ 0 <= y /\ (In f f_scores -> F1 x y == f).
Proof.
  unfold iso_line. cbn [xdata ydata]. unfold ge0. split.
  - apply mask_same_length. symmetry. apply length_map.
  - intros x y H.
    rewrite (mask_map_points (iso_f1 f) (fun v => Qle_bool 0 v) x_grid) in H.
    apply filter_In in H. destruct H as [H Hy]. cbn [snd] in Hy.
    apply in_map_iff in H. destruct H as (x' & E & Hx). injection E as E1 E2. subst x' y.
    split; [exact Hx|]. split; [reflexivity|].
    split; [apply Qle_bool_iff; exact Hy|].
    intros Hf. destruct (grid_ok_spec _ _ notebook_grid_ok _ _ Hf Hx) as [Hx0 Hd].
    apply F1_iso_f1; assumption.
Qed.

(** ** The dictionaries of cell 13 *)

Lemma keys_dict_set {A} (d : dict A) (k : key) (v : A) :
  keys (dict_set d k v) = insert_key k (keys d).
Proof.
  unfold keys, insert_key. induction d as [|[k' v'] d IH]; [reflexivity|].
  cbn [dict_set map fst existsb]. destruct (key_eqb k k') eqn:E.
  - apply key_eqb_eq in E. subst k'. reflexivity.
  - cbn [map fst orb]. rewrite IH.
    destruct (existsb (key_eqb k) (map fst d)); reflexivity.
Qed.

Lemma dict_get_keys {A} (d : dict A) (k : key) :
  (In k (keys d) -> exists v, dict_get d k = Ok v) /\
  (~ In k (keys d) -> dict_get d k = Raise KeyError).
Proof.
  unfold keys. induction d as [|[k' v'] d [IH1 IH2]]; cbn [map fst In dict_get].
  - split; [contradiction|reflexivity].
  - destruct (key_eqb k k') eqn:E.
    + apply key_eqb_eq in E. subst k'. split; [eauto|]. intros N. exfalso. apply N. left.
      reflexivity.
    + assert (N : k' <> k) by (intros ->; rewrite key_eqb_refl in E; discriminate).
      split.
      * intros [H|H]; [contradiction|apply IH1; exact H].
      * intros H. apply IH2. intros H'. apply H. right. exact H'.
Qed.

Lemma insert_key_fresh (i : nat) :
  insert_key (KInt i) (map KInt (seq 0 i)) = map KInt (seq 0 (S i)).
Proof.
  unfold insert_key.
  replace (existsb (key_eqb (KInt i)) (map KInt (seq 0 i))) with false.
  - rewrite seq_S, map_app. reflexivity.
  - symmetry. apply not_true_is_false. intros H.
    apply existsb_exists in H. destruct H as (k & Hk & E).
    apply in_map_iff in Hk. destruct Hk as (j & <- & Hj).
    apply in_seq in Hj. cbn [key_eqb] in E. apply Nat.eqb_eq in E. lia.
Qed.

Lemma keys_add_class lib Y_test y_score d i :
  keys (precision (add_class lib Y_test y_score d i)) = insert_key (KInt i) (keys (precision d)) /\
  keys (recall (add_class lib Y_test y_score d i)) = insert_key (KInt i) (keys (recall d)) /\
  keys (average_precision (add_class lib Y_test y_score d i))
  = insert_key (KInt i) (keys (average_precision d)).
Proof.
  unfold add_class.
  destruct (precision_recall_curve lib (col i Y_test) (col i y_score)) as [[p r] t].
  cbn [precision recall average_precision]. rewrite !keys_dict_set. auto.
Qed.

Lemma keys_class_loop lib Y_test y_score m :
  forall s d,
    keys (precision d) = map KInt (seq 0 s) ->
    keys (recall d) = map KInt (seq 0 s) ->
    keys (average_precision d) = map KInt (seq 0 s) ->
    let d' := fold_left (add_class lib Y_test y_score) (seq s m) d in
    keys (precision d') = map KInt (seq 0 (s + m)) /\
    keys (recall d') = map KInt (seq 0 (s + m)) /\
    keys (average_precision d') = map KInt (seq 0 (s + m)).
Proof.
  induction m as [|m IH]; intros s d Hp Hr Ha; cbn [seq fold_left].
  - rewrite Nat.add_0_r. auto.
  - destruct (keys_add_class lib Y_test y_score d s) as (Ep & Er & Ea).
    rewrite Hp in Ep. rewrite Hr in Er. rewrite Ha in Ea.
    rewrite insert_key_fresh in Ep, Er, Ea.
    replace (s + S m)%nat with (S s + m)%nat by lia.
    apply IH; assumption.
Qed.

Lemma cell_13_all_keys lib n Y_test y_score :
  let d := cell_13_curves lib n Y_test y_score in
  keys (precision d) = cell_13_keys n /\
  keys (recall d) = cell_13_keys n /\
  keys (average_precision d) = cell_13_keys n.
Proof.
  cbv zeta. unfold cell_13_curves, cell_13_keys.
  destruct (keys_class_loop lib Y_test y_score n 0
              {| precision := []; recall := []; average_precision := [] |}
              eq_refl eq_refl eq_refl) as (Ep & Er & Ea).
  cbn [Nat.add] in *. unfold add_micro.
  destruct (precision_recall_curve lib (ravel Y_test) (ravel y_score)) as [[p r] t].
  cbn [precision recall average_precision]. rewrite !keys_dict_set, Ep, Er, Ea.
  assert (F : insert_key (KStr "micro") (map KInt (seq 0 n))
              = map KInt (seq 0 n) ++ [KStr "micro"]).
  { unfold insert_key.
    replace (existsb (key_eqb (KStr "micro")) (map KInt (seq 0 n))) with false; [reflexivity|].
    symmetry. apply not_true_is_false. intros H.
    apply existsb_exists in H. destruct H as (k & Hk & E).
    apply in_map_iff in Hk. destruct Hk as (j & <- & _). discriminate E. }
  rewrite F. auto.
Qed.

Lemma cell_13_curves_dictionaries lib n Y_test y_score :
  let d := cell_13_curves lib n Y_test y_score in
  keys (precision d) = cell_13_keys n /\
  keys (recall d) = cell_13_keys n /\
  keys (average_precision d) = cell_13_keys n /\
  forall k,
    (In k (cell_13_keys n) -> exists p r ap, entries d k = (Ok p, Ok r, Ok ap)) /\
    (~ In k (cell_13_keys n) ->
     entries d k = (Raise KeyError, Raise KeyError, Raise KeyError)).
Proof.
  cbv zeta. destruct (cell_13_all_keys lib n Y_test y_score) as (Ep & Er & Ea).
  repeat (split; [assumption|]).
  intros k. unfold entries. split; intros H.
  - destruct (proj1 (dict_get_keys (precision (cell_13_curves lib n Y_test y_score)) k))
      as [p ->]; [rewrite Ep; exact H|].
    destruct (proj1 (dict_get_keys (recall (cell_13_curves lib n Y_test y_score)) k))
      as [r ->]; [rewrite Er; exact H|].
    destruct (proj1 (dict_get_keys (average_precision (cell_13_curves lib n Y_test y_score)) k))
      as [ap ->]; [rewrite Ea; exact H|].
    eauto.
  - rewrite (proj2 (dict_get_keys (precision (cell_13_curves lib n Y_test y_score)) k))
      by (rewrite Ep; exact H).
    rewrite (proj2 (dict_get_keys (recall (cell_13_curves lib n Y_test y_score)) k))
      by (rewrite Er; exact H).
    rewrite (proj2 (dict_get_keys (average_precision (cell_13_curves lib n Y_test y_score)) k))
      by (rewrite Ea; exact H).
    reflexivity.
Qed.

(** X5: when every class has its column in the held-out labels and scores,
    cell 13 returns, and the three dictionaries [precision], [recall] and
    [average_precision] it leaves hold the same keys in the same order, one
    per class and then ["micro"]; a lookup of one of these keys succeeds in
    all three, a lookup of any other key raises KeyError in all three. *)
Theorem cell_13_dictionaries lib n Y_test y_score w :
  (forall i, (i < n)%nat -> exists yt, column i Y_test = Ok yt) ->
  (forall i, (i < n)%nat -> exists ys, column i y_score = Ok ys) ->
  exists d w',
    cell_13 lib n Y_test y_score w = Ok (d, w') /\
    keys (precision d) = cell_13_keys n /\
    keys (recall d) = cell_13_keys n /\
    keys (average_precision d) = cell_13_keys n /\
    forall k,
      (In k (cell_13_keys n) -> exists p r ap, entries d k = (Ok p, Ok r, Ok ap)) /\
      (~ In k (cell_13_keys n) ->
       entries d k = (Raise KeyError, Raise KeyError, Raise KeyError)).
Proof.
  intros HY Hs.
  destruct (wp_elim lib (cell_13 lib n Y_test y_score)
              (fun d _ => d = cell_13_curves lib n Y_test y_score) w)
    as (d & w' & E & ->).
  { apply cell_13_wp; [exact HY|exact Hs|reflexivity]. }
  exists (cell_13_curves lib n Y_test y_score), w'. split; [exact E|].
  exact (cell_13_curves_dictionaries lib n Y_test y_score).
Qed.

Lemma cell_13_dictionaries_witness :
  exists d w',
    cell_13 Toy.lib 3 [[1; 0; 0]; [0; 0; 1]]%Z [[5; 6; 7]; [1; 2; 3]] Toy.world0 = Ok (d, w') /\
    keys (precision d) = cell_13_keys 3 /\
    entries d (KInt 3) = (Raise KeyError, Raise KeyError, Raise KeyError).
Proof.
  destruct (cell_13_dictionaries Toy.lib 3 [[1; 0; 0]; [0; 0; 1]]%Z [[5; 6; 7]; [1; 2; 3]]
              Toy.world0)
    as (d & w' & E & Kp & _ & _ & Hk).
  - intros i Hi. destruct i as [|[|[|i]]]; [eexists; reflexivity ..|lia].
  - intros i Hi. destruct i as [|[|[|i]]]; [eexists; reflexivity ..|lia].
  - exists d, w'. split; [exact E|]. split; [exact Kp|].
    apply (proj2 (Hk (KInt 3))). vm_compute. intuition discriminate.
Defined.

(** ** The figure of cell 17 *)

Lemma plotted_app (t u : list event) : plotted (t ++ u) = plotted t ++ plotted u.
Proof.
  induction t as [|e t IH]; [reflexivity|].
  destruct e; cbn [app plotted]; rewrite IH; reflexivity.
Qed.

Lemma plotted_iso_events lib (fs : list Q) :
  plotted (flat_map (iso_events lib) fs) = map iso_line fs.
Proof.
  induction fs as [|f fs IH]; [reflexivity|].
  cbn [flat_map map iso_events app plotted]. rewrite IH. reflexivity.
Qed.

Lemma plotted_map_plot {A} (f : A -> line) (l : list A) :
  plotted (map (fun a => Plot (f a)) l) = map f l.
Proof.
  induction l as [|a l IH]; [reflexivity|]. cbn [map plotted]. rewrite IH. reflexivity.
Qed.

Lemma zip_range_cycle_length (n : nat) : length (zip_range_cycle n colors) = n.
Proof. unfold zip_range_cycle, colors. rewrite length_map, length_seq. reflexivity. Qed.

(** X6: cell 17 draws four iso-F1 curves, the micro-averaged curve and one
    curve per class, but its legend has only one entry for the iso-F1 curves,
    the line of the last level: [lines.append(l)] comes after the loop.  The
    legend's lines and labels have the same length, the number of classes
    plus two. *)
Theorem cell_17_legend lib n d w :
  (forall i, (i < n)%nat -> exists p r ap, entries d (KInt i) = (Ok p, Ok r, Ok ap)) ->
  (exists p r ap, entries d (KStr "micro") = (Ok p, Ok r, Ok ap)) ->
  exists w' shown lines labels,
    cell_17 lib n d w = Ok (tt, w') /\
    trace w' = trace w ++ shown /\
    In (Legend lines labels) shown /\
    length lines = (n + 2)%nat /\ length labels = (n + 2)%nat /\
    hd (iso_line 0) lines = iso_line (last f_scores 0) /\
    plotted shown = map iso_line f_scores ++ tl lines /\
    length (plotted shown) = (n + 5)%nat.
Proof.
  intros Hd Hm.
  destruct (wp_elim lib (cell_17 lib n d)
              (fun _ w' => trace w' = trace w ++ cell_17_events lib n d) w)
    as ([] & w' & E & Ht).
  { apply cell_17_wp; [exact Hd|exact Hm|reflexivity]. }
  exists w', (cell_17_events lib n d).
  exists (iso_line (last f_scores 0) :: micro_line d
          :: map (class_line_of d) (zip_range_cycle n colors)).
  exists ("iso-f1 curves"%string :: micro_label lib d
          :: map (class_label_of lib d) (zip_range_cycle n colors)).
  split; [exact E|]. split; [exact Ht|].
  assert (P : plotted (cell_17_events lib n d)
              = map iso_line f_scores
                ++ micro_line d :: map (class_line_of d) (zip_range_cycle n colors)).
  { unfold cell_17_events. cbn [plotted]. rewrite plotted_app, plotted_iso_events.
    cbn [plotted]. rewrite plotted_app, plotted_map_plot. cbn [plotted].
    rewrite app_nil_r. reflexivity. }
  split.
  { unfold cell_17_events. right. apply in_or_app. right. right. apply in_or_app. right.
    do 6 right. left. reflexivity. }
  split; [cbn [length]; rewrite length_map, zip_range_cycle_length; lia|].
  split; [cbn [length]; rewrite length_map, zip_range_cycle_length; lia|].
  split; [reflexivity|].
  split; [exact P|].
  rewrite P, length_app, length_map. cbn [length].
  rewrite length_map, zip_range_cycle_length.
  change (length f_scores) with 4%nat. lia.
Qed.

Lemma cell_17_legend_witness :
  exists w' shown lines labels,
    cell_17 Toy.lib 3 (cell_13_curves Toy.lib 3 [[1; 0; 0]]%Z [[5; 6; 7]]) Toy.world0
    = Ok (tt, w') /\
    In (Legend lines labels) shown /\
    length lines = 5%nat /\ length (plotted shown) = 8%nat.
Proof.
  destruct (cell_17_legend Toy.lib 3 (cell_13_curves Toy.lib 3 [[1; 0; 0]]%Z [[5; 6; 7]])
              Toy.world0)
    as (w' & shown & lines & labels & E & _ & Hleg & Ll & _ & _ & _ & Lp).
  - intros i Hi. destruct i as [|[|[|i]]]; [do 3 eexists; reflexivity ..|lia].
  - do 3 eexists; reflexivity.
  - exists w', shown, lines, labels. repeat split; assumption.
Defined.

(** ** Cells run out of order *)

Lemma bind_ok {lib A B} (c : M lib A) (k : A -> M lib B) w a w' :
  c w = Ok (a, w') -> bind c k w = k a w'.
Proof. unfold bind. intros ->. reflexivity. Qed.

Lemma bind_raise {lib A B} (c : M lib A) (k : A -> M lib B) w e :
  c w = Raise e -> bind c k w = Raise e.
Proof. unfold bind. intros ->. reflexivity. Qed.

(** X7: with [X] and [y] bound but the name [random_state] unbound, the
    multi-label part raises NameError. *)
Theorem multilabel_case_needs_random_state lib X y w :
  random_state w = None -> multilabel_case lib X y w = Raise NameError.
Proof.
  intros H. unfold multilabel_case. apply bind_raise.
  unfold cell_11. erewrite bind_ok; [|reflexivity].
  apply bind_raise. unfold returns, draw. cbn [random_state]. rewrite H. reflexivity.
Qed.

Lemma multilabel_case_needs_random_state_witness :
  random_state Toy.world0 = None /\
  multilabel_case Toy.lib (data Toy.iris) (target Toy.iris) Toy.world0 = Raise NameError.
Proof.
  split; [reflexivity|].
  exact (multilabel_case_needs_random_state Toy.lib (data Toy.iris) (target Toy.iris)
           Toy.world0 eq_refl).
Defined.

(** X8: cells 15 and 17 need the ["micro"] entries cell 13 makes: on
    dictionaries without a ["micro"] recall both raise KeyError. *)
Theorem plots_need_micro_entry lib n d w :
  dict_get (recall d) (KStr "micro") = Raise KeyError ->
  cell_15 lib d w = Raise KeyError /\ cell_17 lib n d w = Raise KeyError.
Proof.
  intros H. split.
  - unfold cell_15. erewrite bind_ok; [|reflexivity].
    apply bind_raise. rewrite H. reflexivity.
  - unfold cell_17. erewrite bind_ok; [|reflexivity].
    erewrite bind_ok; [|reflexivity].
    match goal with
    | |- bind (for_in _ _ _) _ ?w1 = _ =>
        destruct (wp_elim lib (for_in f_scores (iso_f1_curve lib) None)
                    (fun l _ => l = Some (iso_line (last f_scores 0))) w1)
          as (l & w2 & E & ->); [apply iso_loop_wp; reflexivity|];
        rewrite (bind_ok _ _ _ _ _ E)
    end.
    erewrite bind_ok; [|reflexivity].
    apply bind_raise. rewrite H. reflexivity.
Qed.

Lemma plots_need_micro_entry_witness :
  cell_15 Toy.lib {| precision := []; recall := []; average_precision := [] |} Toy.world0
  = Raise KeyError /\
  cell_17 Toy.lib 3 {| precision := []; recall := []; average_precision := [] |} Toy.world0
  = Raise KeyError.
Proof.
  exact (plots_need_micro_entry Toy.lib 3
           {| precision := []; recall := []; average_precision := [] |} Toy.world0 eq_refl).
Defined.




(** ** The data the two parts work on *)

Lemma c__rows (a b m : matrix) :
  c_ a b = Ok m ->
  Forall2 (fun row orig => exists nz, In nz b /\ row = orig ++ nz) m a.
Proof.
  revert b m. induction a as [|r a IH]; intros [|s b] m H; cbn [c_] in H;
    try discriminate.
  - injection H as <-. constructor.
  - destruct (c_ a b) as [m'|e] eqn:E; [|discriminate].
    injection H as <-. constructor.
    + exists s. split; [left; reflexivity|reflexivity].
    + eapply Forall2_impl; [|apply IH; exact E].
      intros row orig (nz & Hnz & ->). exists nz. split; [right; exact Hnz|reflexivity].
Qed.

(** X10: adding the noisy features keeps the samples and their original
    features: each row of the matrix cell 4 leaves in [X] starts with the
    row of [iris.data], and when [randn] returns rows of the width asked for
    every row of a rectangular data set gets 200 noisy features per original
    one, 201 times the original width in all. *)
Theorem cell_4_noisy_features lib iris w :
  Contract lib ->
  length (data iris) = length (target iris) ->
  (forall n m r, Forall (fun row => length row = m) (fst (randn lib n m r))) ->
  Forall (fun row => length row = shape1 (data iris)) (data iris) ->
  exists X y_train y_test y_score w',
    cell_4 lib iris w = Ok ((X, target iris, y_train, y_test, y_score), w') /\
    Forall2 (fun row orig => firstn (length orig) row = orig) X (data iris) /\
    Forall (fun row => length row = (201 * shape1 (data iris))%nat) X.
Proof.
  intros C Hwf Hrandn Hrect.
  destruct (wp_elim lib (cell_4 lib iris)
              (fun res _ =>
                 exists X X2 y2 X_train X_test y_train y_test clf r3,
                   cell_4_steps lib iris X X2 y2 X_train X_test y_train y_test clf r3 /\
                   res = (X, target iris, y_train, y_test,
                          decision_function lib clf X_test)) w)
    as (res & w' & E & X & X2 & y2 & X_train & X_test & y_train & y_test & clf & r3
        & Hsteps & ->).
  { apply cell_4_wp; [exact C|exact Hwf|].
    intros X X2 y2 X_train X_test y_train y_test clf r3 Hsteps _.
    exists X, X2, y2, X_train, X_test, y_train, y_test, clf, r3. split; [exact Hsteps|].
    reflexivity. }
  exists X, y_train, y_test, (decision_function lib clf X_test), w'.
  split; [exact E|].
  destruct Hsteps as (noise & r1 & r2 & Ernd & Ec & _).
  pose proof (Hrandn (length (data iris)) (200 * shape1 (data iris))%nat (RandomState lib 0))
    as Hnoise.
  rewrite Ernd in Hnoise. cbn [fst] in Hnoise. rewrite Forall_forall in Hnoise.
  apply c__rows in Ec. clear E Ernd.
  remember (shape1 (data iris)) as k eqn:Ek. clear Ek.
  revert Ec Hrect. generalize (data iris). intros rows Ec Hrect.
  induction Ec as [|row orig X' rows' (nz & Hnz & ->) _ IH].
  - split; constructor.
  - inversion Hrect as [|? ? Ho Hrows]; subst.
    destruct (IH Hrows) as [F2 F]. split.
    + constructor; [|exact F2]. rewrite firstn_app, firstn_all, Nat.sub_diag.
      cbn [firstn]. apply app_nil_r.
    + constructor; [|exact F]. rewrite length_app, (Hnoise nz Hnz). lia.
Qed.

Lemma toy_randn_width (n m : nat) (r : rng Toy.lib) :
  Forall (fun row => length row = m) (fst (randn Toy.lib n m r)).
Proof.
  cbn [randn Toy.lib fst]. apply Forall_forall. intros row H.
  apply repeat_spec in H. subst row. apply repeat_length.
Qed.

Lemma cell_4_noisy_features_witness :
  exists X y_train y_test y_score w',
    cell_4 Toy.lib Toy.iris Toy.world0 = Ok ((X, target Toy.iris, y_train, y_test, y_score), w') /\
    Forall (fun row => length row = 201%nat) X.
Proof.
  destruct (cell_4_noisy_features Toy.lib Toy.iris Toy.world0 toy_contract eq_refl
              toy_randn_width)
    as (X & y_train & y_test & y_score & w' & E & _ & F).
  - repeat constructor.
  - exists X, y_train, y_test, y_score, w'. split; [exact E|exact F].
Defined.

Lemma mask_map_filter {A} (f : A -> bool) (a : list A) :
  mask a (map f a) = filter f a.
Proof.
  unfold mask. induction a as [|x a IH]; [reflexivity|].
  cbn [map combine filter snd]. destruct (f x); cbn [map fst]; rewrite IH; reflexivity.
Qed.

(** X11: the two parts work on different samples.  The binary split shares
    out exactly the samples labelled below 2; the multi-label split shares
    out every sample, half for training, and the binarized labels have three
    columns, the held-out ones included. *)
Theorem parts_split_different_samples lib iris g :
  Contract lib ->
  length (data iris) = length (target iris) ->
  (2 <= length (data iris))%nat ->
  exists X X2 y2 X_train X_test y_train y_test clf r3
         X_train' X_test' Y_train Y_test clf' r5 d w,
    run lib iris g = Ok (d, w) /\
    cell_4_steps lib iris X X2 y2 X_train X_test y_train y_test clf r3 /\
    cell_11_steps lib X (target iris) r3 X_train' X_test' Y_train Y_test clf' r5 /\
    (length X_train + length X_test
     = length (filter (fun l => (l <? 2)%Z) (target iris)))%nat /\
    (length X_train' + length X_test' = length (target iris))%nat /\
    length X_train' = (length (target iris) / 2)%nat /\
    length Y_train = length X_train' /\
    length Y_test = length X_test' /\
    shape1 (label_binarize lib (target iris) [0; 1; 2]%Z) = 3%nat /\
    Forall (fun row => length row = 3%nat) Y_test.
Proof.
  intros C Hwf Hn.
  destruct (run_steps lib C iris g Hwf Hn)
    as (X & X2 & y2 & X_train & X_test & y_train & y_test & clf & r3
        & X_train' & X_test' & Y_train & Y_test & clf' & r5 & H).
  cbv zeta in H. destruct H as (Hsteps & LX & Hsteps' & _ & _ & Erun).
  exists X, X2, y2, X_train, X_test, y_train, y_test, clf, r3,
         X_train', X_test', Y_train, Y_test, clf', r5.
  eexists _, _. split; [exact Erun|]. split; [exact Hsteps|]. split; [exact Hsteps'|].
  destruct (cell_4_split lib C iris X X2 y2 X_train X_test y_train y_test clf r3
              Hwf LX Hsteps) as (_ & P & Ltr & Lte & _ & _).
  destruct (cell_11_shapes lib C X (target iris) r3 X_train' X_test' Y_train Y_test clf' r5)
    as (Hshape & HYt & _); [congruence|lia|exact Hsteps'|].
  assert (LY : length X = length (label_binarize lib (target iris) [0; 1; 2]%Z))
    by (rewrite (binarize_rows C); congruence).
  destruct Hsteps' as (r4 & Esplit & _).
  destruct (split_half lib C X _ r3 _ _ _ _ _ LY Esplit) as (P' & Ltr' & Lte' & Ntr' & Nte').
  split.
  { apply Permutation_length in P.
    rewrite length_app, !length_combine, <- Ltr, <- Lte, !Nat.min_id in P. rewrite P.
    destruct Hsteps as (noise & r1 & r2 & _ & _ & EX2 & Ey2 & _).
    assert (Lm : length (map (fun v => (v <? 2)%Z) (target iris)) = length (target iris))
      by apply length_map.
    rewrite mask_select_ok in EX2 by congruence.
    rewrite mask_select_ok in Ey2 by congruence.
    injection EX2 as <-. injection Ey2 as <-.
    rewrite <- (mask_same_length X (target iris)) by congruence.
    rewrite Nat.min_id, (mask_same_length X (target iris)) by congruence.
    rewrite mask_map_filter. reflexivity. }
  split.
  { rewrite Ntr', Nte', LX, Hwf.
    assert (D := Nat.div_mod_eq (length (target iris)) 2).
    assert (D1 := Nat.div_mod_eq (length (target iris) + 1) 2).
    assert (B := Nat.mod_upper_bound (length (target iris)) 2 ltac:(lia)).
    assert (B1 := Nat.mod_upper_bound (length (target iris) + 1) 2 ltac:(lia)).
    lia. }
  split; [rewrite Ntr', LX, Hwf; reflexivity|].
  split; [symmetry; exact Ltr'|]. split; [symmetry; exact Lte'|].
  split; [exact Hshape|exact HYt].
Qed.

Lemma parts_split_different_samples_witness :
  length (data Toy.iris) = length (target Toy.iris) /\
  (2 <= length (data Toy.iris))%nat /\
  exists (X_train X_test X_train' X_test' : matrix) d w,
    run Toy.lib Toy.iris 0%nat = Ok (d, w) /\
    (length X_train + length X_test = 3)%nat /\
    (length X_train' + length X_test' = 4)%nat.
Proof.
  split; [reflexivity|]. split; [simpl; lia|].
  destruct (parts_split_different_samples Toy.lib Toy.iris 0%nat toy_contract eq_refl
              ltac:(simpl; lia))
    as (X & X2 & y2 & X_train & X_test & y_train & y_test & clf & r3
        & X_train' & X_test' & Y_train & Y_test & clf' & r5 & d & w
        & Erun & _ & _ & L2 & L3 & _).
  exists X_train, X_test, X_train', X_test', d, w.
  split; [exact Erun|]. split; [exact L2|exact L3].
Defined.

(** ** Micro-averaging pools the classes *)

Lemma combine_app_same {A B} (a a' : list A) (b b' : list B) :
  length a = length b -> combine (a ++ a') (b ++ b') = combine a b ++ combine a' b'.
Proof.
  revert b. induction a as [|x a IH]; intros [|y b] H; cbn [length] in H; try discriminate.
  - reflexivity.
  - cbn [app combine]. rewrite IH by lia. reflexivity.
Qed.

Lemma flat_map_cons_perm {A B} (f : A -> B) (g : A -> list B) (l : list A) :
  Permutation (flat_map (fun i => f i :: g i) l) (map f l ++ flat_map g l).
Proof.
  induction l as [|a l IH]; [apply Permutation_refl|].
  cbn [flat_map map app]. constructor.
  eapply Permutation_trans; [apply Permutation_app_head; exact IH|].
  apply Permutation_app_swap_app.
Qed.

Lemma flat_map_ext_in {A B} (f g : A -> list B) (l : list A) :
  (forall a, In a l -> f a = g a) -> flat_map f l = flat_map g l.
Proof.
  induction l as [|a l IH]; intros H; [reflexivity|].
  cbn [flat_map]. rewrite (H a) by (left; reflexivity).
  rewrite IH; [reflexivity|]. intros b Hb. apply H. right. exact Hb.
Qed.

Lemma combine_by_index {A B} (a : list A) (b : list B) (da : A) (db : B) :
  length a = length b ->
  map (fun i => (nth i a da, nth i b db)) (seq 0 (length a)) = combine a b.
Proof.
  revert b. induction a as [|x a IH]; intros [|y b] H; cbn [length] in H; try discriminate.
  - reflexivity.
  - cbn [length seq map nth combine]. f_equal.
    rewrite <- seq_shift, map_map. cbn [nth]. apply IH. lia.
Qed.

Lemma col_cons {A} (i : nat) (r : list A) (m : list (list A)) (d : A) :
  (i < length r)%nat -> (exists c, column i m = Ok c) ->
  column i (r :: m) = Ok (nth i r d :: col i m).
Proof.
  intros Hi [c Ec]. unfold col. cbn [column].
  rewrite (nth_error_in_range r i d Hi), Ec. reflexivity.
Qed.

(** X12: the micro-average of cell 13 pools the classes: for held-out labels
    and scores of the same shape, every column slice [M[:, i]] succeeds, and
    the label/score pairs of the two flattened arrays are, up to order,
    exactly the pairs the per-class calls receive, all classes together. *)
Theorem micro_pools_the_classes (n : nat) (Y_test : indicator) (y_score : matrix) :
  Forall2 (fun a b => length a = n /\ length b = n) Y_test y_score ->
  (forall i, (i < n)%nat ->
     column i Y_test = Ok (col i Y_test) /\ column i y_score = Ok (col i y_score)) /\
  Permutation (combine (ravel Y_test) (ravel y_score))
              (flat_map (fun i => combine (col i Y_test) (col i y_score)) (seq 0 n)).
Proof.
  unfold ravel. induction 1 as [|a b Y S [La Lb] _ [IHc IHp]].
  - split; [intros i _; split; reflexivity|].
    cbn [concat combine]. clear. induction (seq 0 n) as [|i l IH]; [constructor|exact IH].
  - assert (Hc : forall i, (i < n)%nat ->
                   column i (a :: Y) = Ok (nth i a 0%Z :: col i Y) /\
                   column i (b :: S) = Ok (nth i b 0 :: col i S)).
    { intros i Hi. destruct (IHc i Hi) as [EY ES]. split.
      - apply col_cons; [lia|eauto].
      - apply col_cons; [lia|eauto]. }
    split.
    + intros i Hi. destruct (Hc i Hi) as [EY ES]. unfold col. rewrite EY, ES. auto.
    + cbn [concat]. rewrite combine_app_same by congruence.
      rewrite (flat_map_ext_in _
                 (fun i => (nth i a 0%Z, nth i b 0) :: combine (col i Y) (col i S))).
      * eapply Permutation_trans; [|apply Permutation_sym, flat_map_cons_perm].
        rewrite <- La, (combine_by_index a b 0%Z 0) by congruence.
        apply Permutation_app_head. rewrite La. exact IHp.
      * intros i Hi. apply in_seq in Hi. destruct (Hc i) as [EY ES]; [lia|].
        unfold col. rewrite EY, ES. reflexivity.
Qed.

Lemma micro_pools_the_classes_witness :
  Permutation (combine (ravel [[1; 0]; [0; 1]]%Z) (ravel [[5; 6]; [7; 8]]))
              (flat_map (fun i => combine (col i [[1; 0]; [0; 1]]%Z) (col i [[5; 6]; [7; 8]]))
                        (seq 0 2)).
Proof.
  apply (micro_pools_the_classes 2 [[1; 0]; [0; 1]]%Z [[5; 6]; [7; 8]]).
  repeat constructor.
Defined.

(** ** The generators *)

Section KeepsGlobal.

Variable lib : Library.

Lemma keeps_global_ret {A} (a : A) : keeps_global (@ret lib A a).
Proof. intros w a' w' E. injection E as _ <-. reflexivity. Qed.

Lemma keeps_global_bind {A B} (c : M lib A) (k : A -> M lib B) :
  keeps_global c -> (forall a, keeps_global (k a)) -> keeps_global (bind c k).
Proof.
  intros Hc Hk w b w' E. unfold bind in E.
  destruct (c w) as [[a w1]|e] eqn:Ec; [|discriminate].
  rewrite (Hk a w1 b w' E). exact (Hc w a w1 Ec).
Qed.

Lemma keeps_global_lift {A} (r : result A) : keeps_global (@lift lib A r).
Proof.
  intros w a w' E. unfold lift in E. destruct r; [|discriminate].
  injection E as _ <-. reflexivity.
Qed.

Lemma keeps_global_emit (e : event) : keeps_global (@emit lib e).
Proof. intros w a w' E. injection E as _ <-. reflexivity. Qed.

Lemma keeps_global_assign_random_state (seed : Z) :
  keeps_global (@assign_random_state lib seed).
Proof. intros w a w' E. injection E as _ <-. reflexivity. Qed.

Lemma keeps_global_draw {A} (f : rng lib -> A * rng lib) :
  keeps_global (draw RsNotebook f).
Proof.
  intros w a w' E. unfold draw in E.
  destruct (random_state w) as [r|]; [|discriminate].
  destruct (f r) as [a' r']. injection E as _ <-. reflexivity.
Qed.

Lemma keeps_global_returns {A} (c : M lib A) (vals : A -> list value) :
  keeps_global c -> keeps_global (returns c vals).
Proof.
  intros Hc w a w' E. unfold returns in E.
  destruct (c w) as [[a1 w1]|e] eqn:Ec; [|discriminate].
  injection E as _ <-. cbn [np_global]. exact (Hc w a1 w1 Ec).
Qed.

Lemma keeps_global_for_in {A S} (l : list A) (body : A -> S -> M lib S) (s : S) :
  (forall v s', keeps_global (body v s')) -> keeps_global (for_in l body s).
Proof.
  intros Hb. revert s. induction l as [|v l IH]; intros s; cbn [for_in].
  - apply keeps_global_ret.
  - apply keeps_global_bind; [apply Hb|]. intros s'. apply IH.
Qed.

End KeepsGlobal.

Ltac keeps_global_step :=
  lazymatch goal with
  | |- keeps_global (bind _ _) => apply keeps_global_bind; [|intros ?]
  | |- keeps_global (ret _) => apply keeps_global_ret
  | |- keeps_global (lift _) => apply keeps_global_lift
  | |- keeps_global (emit _) => apply keeps_global_emit
  | |- keeps_global (assign_random_state _) => apply keeps_global_assign_random_state
  | |- keeps_global (draw RsNotebook _) => apply keeps_global_draw
  | |- keeps_global (returns _ _) => apply keeps_global_returns
  | |- keeps_global (for_in _ _ _) => apply keeps_global_for_in; intros ? ?
  | |- keeps_global (match ?x with _ => _ end) => destruct x
  end.

Lemma keeps_global_notebook lib iris : keeps_global (notebook lib iris).
Proof.
  unfold notebook, binary_case, multilabel_case,
    cell_4, cell_5, cell_7, cell_9, cell_11, cell_13, cell_15, cell_17.
  repeat keeps_global_step.
  - unfold class_curve. repeat keeps_global_step.
  - unfold iso_f1_curve, plot. repeat keeps_global_step.
  - unfold plot. repeat keeps_global_step.
  - unfold class_line, plot. repeat keeps_global_step.
Qed.

(** A call with [random_state=None] does advance the global generator. *)
Lemma draw_none_moves_global :
  ~ keeps_global (draw (lib := Toy.lib) RsNone (randn Toy.lib 1 1)).
Proof.
  intros H.
  specialize (H Toy.world0 _ _ eq_refl). discriminate H.
Qed.

(** X13: a run that returns leaves numpy's global generator in the state it
    found it: every randomised call of the notebook is given the notebook's
    own [random_state], none draws from the global one. *)
Theorem run_leaves_global_generator lib iris g d w :
  run lib iris g = Ok (d, w) -> np_global w = g.
Proof.
  intros E. exact (keeps_global_notebook lib iris _ _ _ E).
Qed.

Lemma run_leaves_global_generator_witness :
  exists d w, run Toy.lib Toy.iris 5%nat = Ok (d, w) /\ np_global w = 5%nat.
Proof.
  destruct (run_steps Toy.lib toy_contract Toy.iris 5%nat eq_refl ltac:(simpl; lia))
    as (X & X2 & y2 & X_train & X_test & y_train & y_test & clf & r3
        & X_train' & X_test' & Y_train & Y_test & clf' & r5 & H).
  cbv zeta in H. destruct H as (_ & _ & _ & _ & _ & Erun).
  eexists _, _. split; [exact Erun|].
  exact (run_leaves_global_generator Toy.lib Toy.iris 5%nat _ _ Erun).
Defined.

Lemma cell_4_steps_fun lib iris
  X X2 y2 X_train X_test y_train y_test clf r3
  X' X2' y2' X_train' X_test' y_train' y_test' clf' r3' :
  cell_4_steps lib iris X X2 y2 X_train X_test y_train y_test clf r3 ->
  cell_4_steps lib iris X' X2' y2' X_train' X_test' y_train' y_test' clf' r3' ->
  X = X' /\ X_train = X_train' /\ X_test = X_test' /\ y_train = y_train' /\
  y_test = y_test' /\ clf = clf' /\ r3 = r3'.
Proof.
  intros (noise & r1 & r2 & Ernd & Ec & EX2 & Ey2 & Esplit & Efit)
         (noise' & r1' & r2' & Ernd' & Ec' & EX2' & Ey2' & Esplit' & Efit').
  rewrite Ernd in Ernd'. injection Ernd' as <- <-.
  rewrite Ec in Ec'. injection Ec' as <-.
  rewrite EX2 in EX2'. injection EX2' as <-.
  rewrite Ey2 in Ey2'. injection Ey2' as <-.
  rewrite Esplit in Esplit'. injection Esplit' as <- <- <- <- <-.
  rewrite Efit in Efit'. injection Efit' as <- <-.
  repeat split.
Qed.

(** X14: the binary part starts afresh each time: cell 4 binds
    [random_state] to a new [RandomState(0)], so from any state of the
    kernel, whatever ran before, it computes the same matrix, shows the same
    output after what was already shown, receives the same values from the
    library and leaves the notebook's generator in the same state. *)
Theorem binary_case_starts_afresh lib iris :
  Contract lib ->
  length (data iris) = length (target iris) ->
  exists X r3 shown vals,
    forall w,
      binary_case lib iris w
      = Ok ((X, target iris),
            {| np_global := np_global w; random_state := Some r3;
               trace := trace w ++ shown; returned := returned w ++ vals |}).
Proof.
  intros C Hwf.
  pose (Q := fun (w : world lib) (res : matrix * labels) (w' : world lib) =>
               exists X X2 y2 X_train X_test y_train y_test clf r3,
                 cell_4_steps lib iris X X2 y2 X_train X_test y_train y_test clf r3 /\
                 res = (X, target iris) /\
                 w' = {| np_global := np_global w; random_state := Some r3;
                         trace := trace w
                                  ++ binary_events lib y_train y_test
                                       (decision_function lib clf X_test);
                         returned := returned w
                                     ++ binary_returned lib iris X X_train X_test
                                          y_train y_test
                                          (decision_function lib clf X_test) |}).
  assert (G : forall w, wp (binary_case lib iris) (Q w) w).
  { intros w. apply binary_case_wp; [exact C|exact Hwf|].
    intros X X2 y2 X_train X_test y_train y_test clf r3 Hsteps _ y_score.
    exists X, X2, y2, X_train, X_test, y_train, y_test, clf, r3.
    split; [exact Hsteps|]. split; reflexivity. }
  destruct (wp_elim lib _ _ _ (G {| np_global := RandomState lib 0; random_state := None;
                                   trace := []; returned := [] |}))
    as (res0 & w0' & _ & X & X2 & y2 & X_train & X_test & y_train & y_test & clf & r3
        & Hsteps & _ & _).
  exists X, r3, (binary_events lib y_train y_test (decision_function lib clf X_test)),
         (binary_returned lib iris X X_train X_test y_train y_test
            (decision_function lib clf X_test)).
  intros w.
  destruct (wp_elim lib _ _ _ (G w))
    as (res & w' & E & X' & X2' & y2' & X_train' & X_test' & y_train' & y_test' & clf' & r3'
        & Hsteps' & -> & ->).
  destruct (cell_4_steps_fun lib iris _ _ _ _ _ _ _ _ _ _ _ _ _ _ _ _ _ _ Hsteps Hsteps')
    as (<- & <- & <- & <- & <- & <- & <-).
  exact E.
Qed.

Lemma binary_case_starts_afresh_witness :
  length (data Toy.iris) = length (target Toy.iris) /\
  exists X r3 shown vals,
    binary_case Toy.lib Toy.iris Toy.world0
    = Ok ((X, target Toy.iris),
          {| np_global := np_global Toy.world0; random_state := Some r3;
             trace := trace Toy.world0 ++ shown;
             returned := returned Toy.world0 ++ vals |}).
Proof.
  split; [reflexivity|].
  destruct (binary_case_starts_afresh Toy.lib Toy.iris toy_contract eq_refl)
    as (X & r3 & shown & vals & H).
  exists X, r3, shown, vals. exact (H Toy.world0).
Defined.

(** ** Column slices out of range *)

Lemma column_result {A} (i : nat) (m : list (list A)) :
  (exists c, column i m = Ok c) \/ column i m = Raise IndexError.
Proof.
  induction m as [|r m IH]; cbn [column].
  - left. eexists. reflexivity.
  - destruct (nth_error r i) as [v|]; [|right; reflexivity].
    destruct IH as [[c ->]| ->]; [left; eexists; reflexivity|right; reflexivity].
Qed.

Lemma class_curve_result lib Y_test y_score i d w :
  ((exists yt, column i Y_test = Ok yt) /\ (exists ys, column i y_score = Ok ys) /\
   exists d' w', class_curve lib Y_test y_score i d w = Ok (d', w')) \/
  ((column i Y_test = Raise IndexError \/ column i y_score = Raise IndexError) /\
   class_curve lib Y_test y_score i d w = Raise IndexError).
Proof.
  destruct (column_result i Y_test) as [HY|HY].
  - destruct (column_result i y_score) as [Hs|Hs].
    + left. split; [exact HY|]. split; [exact Hs|].
      destruct (wp_elim lib (class_curve lib Y_test y_score i d) (fun _ _ => True) w)
        as (d' & w' & E & _); [apply class_curve_wp; auto|]. eauto.
    + right. split; [right; exact Hs|]. destruct HY as [yt Eyt].
      unfold class_curve. erewrite bind_ok; [|unfold lift; rewrite Eyt; reflexivity].
      apply bind_raise. unfold lift. rewrite Hs. reflexivity.
  - right. split; [left; exact HY|].
    unfold class_curve. apply bind_raise. unfold lift. rewrite HY. reflexivity.
Qed.

Lemma class_loop_raises lib Y_test y_score (l : list nat) :
  forall d w,
    (exists i, In i l /\
               (column i Y_test = Raise IndexError \/ column i y_score = Raise IndexError)) ->
    for_in l (class_curve lib Y_test y_score) d w = Raise IndexError.
Proof.
  induction l as [|v l IH]; intros d w (i & Hi & Hbad); [contradiction|].
  cbn [for_in].
  destruct (class_curve_result lib Y_test y_score v d w)
    as [(HY & Hs & d' & w' & E)|[_ E]].
  - rewrite (bind_ok _ _ _ _ _ E). apply IH. exists i. split; [|exact Hbad].
    destruct Hi as [->|Hi]; [|exact Hi].
    exfalso. destruct HY as [yt Eyt], Hs as [ys Eys].
    destruct Hbad as [B|B]; congruence.
  - apply bind_raise. exact E.
Qed.

(** X15: cell 13 slices one column per class out of the held-out labels and
    scores; when some class below [n_classes] has no column in one of them,
    the cell raises IndexError, whichever class it is. *)
Theorem cell_13_column_out_of_range lib n Y_test y_score w i :
  (i < n)%nat ->
  column i Y_test = Raise IndexError \/ column i y_score = Raise IndexError ->
  cell_13 lib n Y_test y_score w = Raise IndexError.
Proof.
  intros Hi Hbad. unfold cell_13. apply bind_raise.
  apply class_loop_raises. exists i. split; [apply in_seq; lia|exact Hbad].
Qed.

Lemma cell_13_column_out_of_range_witness :
  (2 < 3)%nat /\
  column 2 [[5; 6]] = Raise IndexError /\
  cell_13 Toy.lib 3 [[1; 0; 0]]%Z [[5; 6]] Toy.world0 = Raise IndexError.
Proof.
  assert (Hi : (2 < 3)%nat) by lia.
  assert (Hc : column 2 [[5; 6]] = Raise IndexError) by reflexivity.
  split; [exact Hi|]. split; [exact Hc|].
  exact (cell_13_column_out_of_range Toy.lib 3 [[1; 0; 0]]%Z [[5; 6]] Toy.world0 2 Hi
           (or_intror Hc)).
Defined.

(** ** The scores shown *)

(** X16: a score is shown as one number wherever it appears: the average
    precision printed by cell 7 is the one in the title of cell 9, and the
    micro-averaged one printed by cell 13 is the one in the title of cell 15
    and in the legend of cell 17; both are values the library returned. *)
Theorem shown_scores_agree lib iris g :
  Contract lib ->
  length (data iris) = length (target iris) ->
  (2 <= length (data iris))%nat ->
  exists d w ap ap_micro lines labels,
    run lib iris g = Ok (d, w) /\
    In (Scalar ap) (returned w) /\ In (Scalar ap_micro) (returned w) /\
    In (Print ("Average precision-recall score: " ++ format_2f lib ap)%string) (trace w) /\
    In (Title ("2-class Precision-Recall curve: AP=" ++ format_2f lib ap)%string) (trace w) /\
    In (Print ("Average precision score, micro-averaged over all classes: "
               ++ format_2f lib ap_micro)%string) (trace w) /\
    In (Title ("Average precision score, micro-averaged over all classes: AP="
               ++ format_2f lib ap_micro)%string) (trace w) /\
    In (Legend lines labels) (trace w) /\
    In ("micro-average Precision-recall (area = " ++ format_2f lib ap_micro ++ ")")%string
       labels.
Proof.
  intros C Hwf Hn.
  destruct (run_steps lib C iris g Hwf Hn)
    as (X & X2 & y2 & X_train & X_test & y_train & y_test & clf & r3
        & X_train' & X_test' & Y_train & Y_test & clf' & r5 & H).
  cbv zeta in H. destruct H as (_ & _ & _ & _ & _ & Erun).
  set (n := shape1 (label_binarize lib (target iris) [0; 1; 2]%Z)) in *.
  set (y_score := decision_function lib clf X_test) in *.
  set (y_score' := ovr_decision_function lib clf' X_test') in *.
  set (d := cell_13_curves lib n Y_test y_score') in *.
  pose proof (cell_13_micro_entries lib n Y_test y_score') as Em. fold d in Em.
  apply entries_ok in Em. destruct Em as (_ & _ & Eap).
  exists d. eexists.
  exists (average_precision_score lib y_test y_score),
         (average_precision_score_micro lib Y_test y_score'),
         (iso_line (last f_scores 0) :: micro_line d
          :: map (class_line_of d) (zip_range_cycle n colors)),
         ("iso-f1 curves"%string :: micro_label lib d
          :: map (class_label_of lib d) (zip_range_cycle n colors)).
  split; [exact Erun|]. cbn [trace returned].
  split.
  { apply in_or_app. left. unfold binary_returned. apply in_or_app. left.
    do 9 right. left. reflexivity. }
  split.
  { apply in_or_app. right. unfold multilabel_returned, micro_values.
    apply in_or_app. right. apply in_or_app. right. apply in_or_app. left.
    apply in_or_app. right. left. reflexivity. }
  assert (Hbin : forall e,
             In e [Print ("Average precision-recall score: "
                          ++ format_2f lib (average_precision_score lib y_test y_score))%string;
                   Title ("2-class Precision-Recall curve: AP="
                          ++ format_2f lib (average_precision_score lib y_test y_score))%string] ->
             In e (binary_events lib y_train y_test y_score)).
  { intros e He. unfold binary_events.
    destruct (precision_recall_curve lib y_test y_score) as [[p r] t].
    destruct He as [<-|[<-|[]]].
    - right. left. reflexivity.
    - do 2 right. unfold curve_events. do 6 right. left. reflexivity. }
  split; [apply in_or_app; left; apply Hbin; left; reflexivity|].
  split; [apply in_or_app; left; apply Hbin; right; left; reflexivity|].
  split.
  { apply in_or_app. right. unfold multilabel_events. left. reflexivity. }
  split.
  { apply in_or_app. right. unfold multilabel_events. fold d. do 2 right.
    apply in_or_app. left. unfold curve_events. do 6 right. left.
    rewrite (lookup_ok _ _ _ _ Eap). reflexivity. }
  split.
  { apply in_or_app. right. apply in_multilabel_events. fold d.
    unfold cell_17_events. right. apply in_or_app. right. right. apply in_or_app. right.
    do 6 right. left. reflexivity. }
  right. left. unfold micro_label. rewrite (lookup_ok _ _ _ _ Eap). reflexivity.
Qed.

Lemma shown_scores_agree_witness :
  length (data Toy.iris) = length (target Toy.iris) /\
  (2 <= length (data Toy.iris))%nat /\
  exists d w ap,
    run Toy.lib Toy.iris 0%nat = Ok (d, w) /\
    In (Print ("Average precision-recall score: " ++ format_2f Toy.lib ap)%string) (trace w) /\
    In (Title ("2-class Precision-Recall curve: AP=" ++ format_2f Toy.lib ap)%string) (trace w).
Proof.
  split; [reflexivity|]. split; [simpl; lia|].
  destruct (shown_scores_agree Toy.lib Toy.iris 0%nat toy_contract eq_refl
              ltac:(simpl; lia))
    as (d & w & ap & ap_micro & lines & labels & Erun & _ & _ & Hp & Ht & _).
  exists d, w, ap. split; [exact Erun|]. split; [exact Hp|exact Ht].
Defined.

(** ** The iso-F1 curves cell 17 plots *)

Lemma zip_range_cycle_in {A} (n i : nat) (cs : list A) (c : A) :
  In (i, c) (zip_range_cycle n cs) -> In c cs.
Proof.
  unfold zip_range_cycle. destruct cs as [|c0 cs']; [contradiction|].
  remember (c0 :: cs') as cs eqn:Ecs. intros H. apply in_map_iff in H.
  destruct H as (j & E & _). apply (f_equal snd) in E. cbn [snd] in E. subst c.
  apply nth_In. apply Nat.mod_upper_bound. subst cs. discriminate.
Qed.

Lemma class_lines_not_gray n d ic :
  In ic (zip_range_cycle n colors) ->
  String.eqb (color (class_line_of d ic)) "gray" = false.
Proof.
  destruct ic as [i c]. intros H. apply zip_range_cycle_in in H.
  cbn [class_line_of color snd]. unfold colors in H. cbn [In] in H.
  repeat (destruct H as [<-|H]; [reflexivity|]). contradiction.
Qed.

(** The gray lines of cell 17 are its iso-F1 curves, one per level. *)
Lemma cell_17_gray_lines lib n d l :
  In (Plot l) (cell_17_events lib n d) -> color l = "gray"%string ->
  exists f, In f f_scores /\ l = iso_line f.
Proof.
  unfold cell_17_events. cbn [In]. intros H Hc.
  destruct H as [H|H]; [discriminate H|].
  apply in_app_or in H. destruct H as [H|H].
  - apply in_flat_map in H. destruct H as (f & Hf & H).
    unfold iso_events in H. cbn [In] in H.
    destruct H as [H|[H|[]]]; [|discriminate H].
    injection H as <-. exists f. split; [exact Hf|reflexivity].
  - exfalso. cbn [In] in H. destruct H as [H|H].
    + injection H as <-. discriminate Hc.
    + apply in_app_or in H. destruct H as [H|H].
      * apply in_map_iff in H. destruct H as (ic & E & Hic). injection E as <-.
        pose proof (class_lines_not_gray n d ic Hic) as N.
        rewrite Hc in N. discriminate N.
      * cbn [In] in H. repeat (destruct H as [H|H]; [discriminate H|]). contradiction.
Qed.

Lemma filter_none {A} (f : A -> bool) (l : list A) :
  (forall x, In x l -> f x = false) -> filter f l = [].
Proof.
  induction l as [|x l IH]; intros H; [reflexivity|].
  cbn [filter]. rewrite (H x) by (left; reflexivity).
  apply IH. intros y Hy. apply H. right. exact Hy.
Qed.

Lemma gray_plotted_cell_17 lib n d :
  filter (fun l => String.eqb (color l) "gray") (plotted (cell_17_events lib n d))
  = map iso_line f_scores.
Proof.
  unfold cell_17_events. cbn [plotted]. rewrite plotted_app, plotted_iso_events.
  cbn [plotted]. rewrite plotted_app, plotted_map_plot. cbn [plotted].
  rewrite app_nil_r, filter_app.
  assert (G : forall fs, filter (fun l => String.eqb (color l) "gray") (map iso_line fs)
                         = map iso_line fs).
  { induction fs as [|f fs IH]; [reflexivity|]. cbn [map filter].
    replace (String.eqb (color (iso_line f)) "gray") with true by reflexivity.
    rewrite IH. reflexivity. }
  rewrite G. cbn [filter].
  replace (String.eqb (color (micro_line d)) "gray") with false by reflexivity.
  rewrite filter_none; [apply app_nil_r|].
  intros l Hl. apply in_map_iff in Hl. destruct Hl as (ic & <- & Hic).
  apply class_lines_not_gray with (n := n). exact Hic.
Qed.



(** ** The iso-F1 level sets, in binary64 and in exact arithmetic *)

Lemma b64_all_within_one_ulp : B64.all_within_one_ulp = true.
Proof. vm_compute. reflexivity. Qed.

Lemma b64_points_per_level :
  map (fun f => length (fst (B64.iso_line f))) B64.f_scores = [45; 40; 35; 30]%nat /\
  map (fun f => length (snd (B64.iso_line f))) B64.f_scores = [45; 40; 35; 30]%nat /\
  map (fun l => length (xdata l)) (map iso_line f_scores) = [45; 40; 35; 30]%nat.
Proof. split; [|split]; vm_compute; reflexivity. Qed.

(** The counterexample to C8 as stated: in the binary64 arithmetic the cell
    runs, at the first level ([f_score = 0.2]) and the sixth grid point the
    formula gives [y >= 0], yet [2 * x * y / (x + y)] is not [f_score]. *)
Lemma iso_f1_point_off_level_set_in_binary64 :
  exists f_score x,
    In f_score B64.f_scores /\ In x B64.x_grid /\
    (0 <=? B64.iso_f1 f_score x)%float = true /\
    (B64.F1 x (B64.iso_f1 f_score x) =? f_score)%float = false.
Proof.
  exists (nth 0 B64.f_scores 0%float), (nth 5 B64.x_grid 0%float).
  split; [apply nth_In; vm_compute; lia|].
  split; [apply nth_In; vm_compute; lia|].
  split; vm_compute; reflexivity.
Qed.

(** C8, amended: the points of the iso-F1 curves lie on their level sets up
    to floating-point rounding.  In binary64, for every level of
    [linspace(0.2, 0.8, 4)] and every grid point [x] of [linspace(0.01, 1)]
    with [y = f_score * x / (2 * x - f_score)] and [y >= 0], the value of
    [2 * x * y / (x + y)] is [f_score] or one of the two doubles next to it.
    In exact arithmetic every point of every gray line cell 17 plots has F1
    score exactly the line's level; the binary64 arrays and the exact ones
    hold the same number of points per level. *)
Theorem iso_f1_points_on_level_set_up_to_rounding lib n d w :
  (forall i, (i < n)%nat -> exists p r ap, entries d (KInt i) = (Ok p, Ok r, Ok ap)) ->
  (exists p r ap, entries d (KStr "micro") = (Ok p, Ok r, Ok ap)) ->
  (forall f_score x,
     In f_score B64.f_scores -> In x B64.x_grid ->
     (0 <=? B64.iso_f1 f_score x)%float = true ->
     B64.within_one_ulp (B64.F1 x (B64.iso_f1 f_score x)) f_score = true) /\
  exists w' shown,
    cell_17 lib n d w = Ok (tt, w') /\
    trace w' = trace w ++ shown /\
    map (fun l => length (xdata l))
        (filter (fun l => String.eqb (color l) "gray") (plotted shown))
    = map (fun f => length (fst (B64.iso_line f))) B64.f_scores /\
    forall l, In (Plot l) shown -> color l = "gray"%string ->
      exists f_score,
        In f_score f_scores /\
        forall x y, In (x, y) (combine (xdata l) (ydata l)) ->
          In x x_grid /\ y = iso_f1 f_score x /\ 0 <= y /\ F1 x y == f_score.
Proof.
  intros Hd Hm. split.
  - intros f x Hf Hx Hy.
    pose proof b64_all_within_one_ulp as A. unfold B64.all_within_one_ulp in A.
    rewrite forallb_forall in A. specialize (A f Hf).
    rewrite forallb_forall in A. specialize (A x Hx).
    rewrite Hy in A. exact A.
  - destruct (wp_elim lib (cell_17 lib n d)
                (fun _ w' => trace w' = trace w ++ cell_17_events lib n d) w)
      as ([] & w' & E & Ht).
    { apply cell_17_wp; [exact Hd|exact Hm|reflexivity]. }
    exists w', (cell_17_events lib n d).
    split; [exact E|]. split; [exact Ht|].
    split.
    { rewrite gray_plotted_cell_17.
      destruct b64_points_per_level as (L1 & _ & L3). rewrite L1, L3. reflexivity. }
    intros l Hl Hc. destruct (cell_17_gray_lines lib n d l Hl Hc) as (f & Hf & ->).
    exists f. split; [exact Hf|].
    intros x y Hxy.
    destruct (proj2 (iso_line_points f) x y Hxy) as (Hx & Ey & Hy & HF).
    split; [exact Hx|]. split; [exact Ey|]. split; [exact Hy|]. exact (HF Hf).
Qed.

Lemma iso_f1_points_on_level_set_up_to_rounding_witness :
  B64.within_one_ulp
    (B64.F1 (nth 5 B64.x_grid 0%float)
            (B64.iso_f1 (nth 0 B64.f_scores 0%float) (nth 5 B64.x_grid 0%float)))
    (nth 0 B64.f_scores 0%float) = true /\
  exists w' shown,
    cell_17 Toy.lib 3 (cell_13_curves Toy.lib 3 [[1; 0; 0]]%Z [[5; 6; 7]]) Toy.world0
    = Ok (tt, w') /\
    trace w' = trace Toy.world0 ++ shown.
Proof.
  destruct (iso_f1_points_on_level_set_up_to_rounding Toy.lib 3
              (cell_13_curves Toy.lib 3 [[1; 0; 0]]%Z [[5; 6; 7]]) Toy.world0)
    as (Hb & w' & shown & E & Ht & _).
  - intros i Hi. destruct i as [|[|[|i]]]; [do 3 eexists; reflexivity ..|lia].
  - do 3 eexists; reflexivity.
  - split.
    + apply Hb.
      * apply nth_In. vm_compute. lia.
      * apply nth_In. vm_compute. lia.
      * vm_compute. reflexivity.
    + exists w', shown. split; [exact E|exact Ht].
Defined.
